(** * Data-store service: row validation and normalisation

    A shallow embedding of
    [packages/cli/src/modules/data-store/data-store.service.ts]
    together with the part of the ECMAScript run time the service relies
    on (typeof, strict equality against literals, the Date time-value
    algorithms, [toISOString], [Date.parse] on the output of
    [toISOString], [String(v)], [Number(v)]).

    Layout:
    - [ES]: ECMAScript values and built-ins;
    - the data model of the service, its state and exception monad, and
      its operations;
    - lemmas: the Date Time String Format, rows and maps, the loops of
      [validateRows], the read path;
    - the properties of the specification (C1 to C10), each with a run on a
      concrete input. *)

From Stdlib Require Import ZArith Lia String Ascii List Floats.SpecFloat.
From stdpp Require Import base option strings gmap functions list.

Local Open Scope string_scope.
Local Open Scope Z_scope.
Local Open Scope list_scope.

(* ===================================================================== *)
(** ** ECMAScript run time *)
(* ===================================================================== *)

Module ES.

(** *** Numbers: IEEE-754 binary64 *)

Definition number : Type := spec_float.

Definition NaN : number := S754_nan.

(** The Number value of an integer (exact whenever [|z| <= 2^53]). *)
Definition number_of_Z (z : Z) : number := binary_normalize 53 1024 z 0 false.

Definition isNaN (x : number) : bool :=
  match x with S754_nan => true | _ => false end.

(** [Number::equal]: IEEE equality, so [NaN] differs from itself and
    [+0] equals [-0]. *)
Definition number_equal (x y : number) : bool := SFeqb x y.

(** [truncate(x)] for a finite number: the integer part, rounding towards
    zero. *)
Definition truncate (x : number) : option Z :=
  match x with
  | S754_zero _ => Some 0
  | S754_finite s m e =>
      let a := if 0 <=? e then Z.shiftl (Z.pos m) e else Z.shiftr (Z.pos m) (- e) in
      Some (if s then - a else a)
  | S754_infinity _ | S754_nan => None
  end.

(** The mathematical value of a finite number when it is an integer. *)
Definition integral_value (x : number) : option Z :=
  match x with
  | S754_zero _ => Some 0
  | S754_finite s m e =>
      if 0 <=? e then Some (if s then - Z.shiftl (Z.pos m) e else Z.shiftl (Z.pos m) e)
      else if Z.land (Z.pos m) (Z.ones (- e)) =? 0
           then Some (if s then - Z.shiftr (Z.pos m) (- e) else Z.shiftr (Z.pos m) (- e))
           else None
  | S754_infinity _ | S754_nan => None
  end.

(** *** Decimal digits *)

Definition digit_char (d : Z) : ascii := ascii_of_nat (48 + Z.to_nat (d mod 10)).

Definition char_digit (c : ascii) : option Z :=
  let n := Z.of_nat (nat_of_ascii c) in
  if (48 <=? n) && (n <=? 57) then Some (n - 48) else None.

(** [pad w n]: the [w] low decimal digits of [n], most significant first. *)
Fixpoint pad (w : nat) (n : Z) : list ascii :=
  match w with
  | O => []
  | S w' => pad w' (n / 10) ++ [digit_char n]
  end.

(** The decimal digits of a positive integer, without leading zero; the
    fuel bounds the number of digits. *)
Fixpoint decimal_digits (fuel : nat) (n : Z) : list ascii :=
  match fuel with
  | O => []
  | S f => if n <? 10 then [digit_char n]
           else decimal_digits f (n / 10) ++ [digit_char n]
  end.

Definition decimal (n : Z) : string :=
  if n <? 0 then String "-" (string_of_list_ascii (decimal_digits 400 (- n)))
  else string_of_list_ascii (decimal_digits 400 n).

(** Reads exactly [w] decimal digits. *)
Fixpoint read_digits (w : nat) (acc : Z) (s : list ascii) : option (Z * list ascii) :=
  match w with
  | O => Some (acc, s)
  | S w' =>
      match s with
      | c :: s' =>
          match char_digit c with
          | Some d => read_digits w' (10 * acc + d) s'
          | None => None
          end
      | [] => None
      end
  end.

Definition expect (c : ascii) (s : list ascii) : option (list ascii) :=
  match s with
  | c' :: s' => if Ascii.eqb c c' then Some s' else None
  | [] => None
  end.

(** *** Time values (ECMAScript, "Date objects": time values and time range) *)

Definition msPerDay : Z := 86400000.
Definition msPerHour : Z := 3600000.
Definition msPerMinute : Z := 60000.
Definition msPerSecond : Z := 1000.
Definition maxTime : Z := 8640000000000000.

Definition Day (t : Z) : Z := t / msPerDay.
Definition TimeWithinDay (t : Z) : Z := t mod msPerDay.

Definition DaysInYear (y : Z) : Z :=
  if negb (y mod 4 =? 0) then 365
  else if negb (y mod 100 =? 0) then 366
  else if negb (y mod 400 =? 0) then 365
  else 366.

Definition DayFromYear (y : Z) : Z :=
  365 * (y - 1970) + (y - 1969) / 4 - (y - 1901) / 100 + (y - 1601) / 400.

Definition TimeFromYear (y : Z) : Z := msPerDay * DayFromYear y.

(** [YearFromTime(t)] is the largest [y] with [TimeFromYear(y) <= t]; it is
    computed from the mean length of a Gregorian year and adjusted by at
    most one year (see [YearFromDay_spec] and [YearFromTime_largest]). *)
Definition YearFromDay (d : Z) : Z :=
  let y := 1970 + (400 * d) / 146097 in
  if d <? DayFromYear y then y - 1
  else if DayFromYear (y + 1) <=? d then y + 1
  else y.

Definition YearFromTime (t : Z) : Z := YearFromDay (Day t).

Definition InLeapYear (t : Z) : Z :=
  if DaysInYear (YearFromTime t) =? 366 then 1 else 0.

Definition DayWithinYear (t : Z) : Z := Day t - DayFromYear (YearFromTime t).

(** Month number 0..11 from the day within the year. *)
Definition MonthFromDayWithinYear (leap d : Z) : Z :=
  if d <? 31 then 0
  else if d <? 59 + leap then 1
  else if d <? 90 + leap then 2
  else if d <? 120 + leap then 3
  else if d <? 151 + leap then 4
  else if d <? 181 + leap then 5
  else if d <? 212 + leap then 6
  else if d <? 243 + leap then 7
  else if d <? 273 + leap then 8
  else if d <? 304 + leap then 9
  else if d <? 334 + leap then 10
  else 11.

Definition MonthFromTime (t : Z) : Z :=
  MonthFromDayWithinYear (InLeapYear t) (DayWithinYear t).

(** First day (within the year) of month [m] (0..11). *)
Definition MonthStart (leap m : Z) : Z :=
  match m with
  | 0 => 0
  | 1 => 31
  | 2 => 59 + leap
  | 3 => 90 + leap
  | 4 => 120 + leap
  | 5 => 151 + leap
  | 6 => 181 + leap
  | 7 => 212 + leap
  | 8 => 243 + leap
  | 9 => 273 + leap
  | 10 => 304 + leap
  | _ => 334 + leap
  end.

Definition DateFromTime (t : Z) : Z :=
  DayWithinYear t - MonthStart (InLeapYear t) (MonthFromTime t) + 1.

Definition HourFromTime (t : Z) : Z := (t / msPerHour) mod 24.
Definition MinFromTime (t : Z) : Z := (t / msPerMinute) mod 60.
Definition SecFromTime (t : Z) : Z := (t / msPerSecond) mod 60.
Definition msFromTime (t : Z) : Z := t mod msPerSecond.

Definition MakeTime (hour min sec ms : Z) : Z :=
  hour * msPerHour + min * msPerMinute + sec * msPerSecond + ms.

(** [MakeDay(year, month, date)] for a month already in 0..11. *)
Definition MakeDay (year month date : Z) : Z :=
  DayFromYear year
  + MonthStart (if DaysInYear year =? 366 then 1 else 0) month
  + date - 1.

Definition MakeDate (day time : Z) : Z := day * msPerDay + time.

(** [TimeClip]: [None] stands for the time value NaN. *)
Definition TimeClip (t : Z) : option Z :=
  if Z.abs t <=? maxTime then Some t else None.

Definition DaysInMonth (year month : Z) : Z :=
  let leap := if DaysInYear year =? 366 then 1 else 0 in
  if month =? 11 then 31 else MonthStart leap (month + 1) - MonthStart leap month.

(** *** [Date.prototype.toISOString] and [Date.parse] *)

(** The year part of the Date Time String Format: four digits for years
    0..9999, otherwise a sign and six digits (expanded years). *)
Definition iso_year (y : Z) : list ascii :=
  if (0 <=? y) && (y <=? 9999) then pad 4 y
  else if y <? 0 then "-"%char :: pad 6 (- y)
  else "+"%char :: pad 6 y.

(** [YYYY-MM-DDTHH:mm:ss.sssZ] for a finite time value. *)
Definition iso_string (t : Z) : string :=
  string_of_list_ascii
    (iso_year (YearFromTime t) ++ "-"%char :: pad 2 (MonthFromTime t + 1)
       ++ "-"%char :: pad 2 (DateFromTime t)
       ++ "T"%char :: pad 2 (HourFromTime t)
       ++ ":"%char :: pad 2 (MinFromTime t)
       ++ ":"%char :: pad 2 (SecFromTime t)
       ++ "."%char :: pad 3 (msFromTime t) ++ ["Z"%char]).

Definition read_iso_year (s : list ascii) : option (Z * list ascii) :=
  match s with
  | "+"%char :: s' => read_digits 6 0 s'
  | "-"%char :: s' =>
      match read_digits 6 0 s' with
      | Some (y, r) => if y =? 0 then None else Some (- y, r)
      | None => None
      end
  | _ => read_digits 4 0 s
  end.

(** The complete UTC form of the Date Time String Format, with every field
    present and in range.  [None] when the string is not of that form. *)
Definition parse_iso_utc (s : string) : option Z :=
  '(y, s) ← read_iso_year (list_ascii_of_string s);
  s ← expect "-" s; '(mo, s) ← read_digits 2 0 s;
  s ← expect "-" s; '(d, s) ← read_digits 2 0 s;
  s ← expect "T" s; '(h, s) ← read_digits 2 0 s;
  s ← expect ":" s; '(mi, s) ← read_digits 2 0 s;
  s ← expect ":" s; '(sec, s) ← read_digits 2 0 s;
  s ← expect "." s; '(ms, s) ← read_digits 3 0 s;
  s ← expect "Z" s;
  match s with
  | [] =>
      if (1 <=? mo) && (mo <=? 12) && (1 <=? d) && (d <=? DaysInMonth y (mo - 1))
         && (h <=? 23) && (mi <=? 59) && (sec <=? 59)
      then Some (MakeDate (MakeDay y (mo - 1) d) (MakeTime h mi sec ms))
      else None
  | _ => None
  end.

(** *** Language values

    The values a cell can hold at run time.  A Date object is represented
    by its time value ([None] is the invalid date, whose time value is
    NaN); [Object] stands for an ordinary object without own conversion
    methods.  Symbols, BigInts and exotic objects are left out. *)
Inductive value : Type :=
  | Null
  | Undefined
  | Boolean (b : bool)
  | Number (n : number)
  | String_ (s : string)
  | Date (tv : option Z)
  | Object (id : nat).

#[global] Instance number_eq_dec : EqDecision number.
Proof. unfold number. solve_decision. Defined.

#[global] Instance value_eq_dec : EqDecision value.
Proof. solve_decision. Defined.

Definition typeof (v : value) : string :=
  match v with
  | Undefined => "undefined"
  | Boolean _ => "boolean"
  | Number _ => "number"
  | String_ _ => "string"
  | Null | Date _ | Object _ => "object"
  end.

Definition instanceof_Date (v : value) : bool :=
  match v with Date _ => true | _ => false end.

(** A time value of a Date object is NaN or an integer of the time range. *)
Definition wf_value (v : value) : Prop :=
  match v with
  | Date (Some t) => Z.abs t <= maxTime
  | _ => True
  end.

#[global] Instance wf_value_dec v : Decision (wf_value v).
Proof. destruct v as [| |b|x|s|[t|]|o]; simpl; apply _. Defined.

(** Primitive literals of the source text, and [v === literal]. *)
Inductive literal : Type :=
  | LNumber (z : Z)
  | LString (s : string).

Definition strict_equals (v : value) (l : literal) : bool :=
  match v, l with
  | Number x, LNumber z => number_equal x (number_of_Z z)
  | String_ a, LString b => String.eqb a b
  | _, _ => false
  end.

(** Exceptions: the service's own [UserError], the two the run time raises
    in this code, and the failures of the storage collaborators, which the
    service lets through as they are. *)
Inductive exn : Type :=
  | UserError (message : string)
  | RangeError
  | TypeError
  | StorageFailure (reason : string).

Inductive completion (A : Type) : Type :=
  | Normal (a : A)
  | Throw (e : exn).
Arguments Normal {A} a.
Arguments Throw {A} e.

(** [Date.prototype.toISOString]: a RangeError on an invalid date. *)
Definition toISOString (tv : option Z) : completion string :=
  match tv with
  | Some t => Normal (iso_string t)
  | None => Throw RangeError
  end.

(** *** Implementation-defined parts of the run time

    What ECMAScript leaves to the implementation, or what is not needed in
    closed form here, is a parameter of the development. *)
Class Implementation : Type := {
  (** [Number::toString] outside the integers of magnitude at most 2^53. *)
  NumberToString_other : number → string;
  (** [StringToNumber]. *)
  StringToNumber : string → number;
  (** [Date.parse] on a string that is not of the complete UTC form (other
      forms of the format, and the implementation's own heuristics). *)
  DateParse_other : string → option Z;
  (** [Date.prototype.toString] of a valid date (local time zone). *)
  DateToString : Z → string;
}.

Section conversions.
Context `{Implementation}.

(** [Number::toString(x, 10)]. *)
Definition NumberToString (x : number) : string :=
  match x with
  | S754_nan => "NaN"
  | S754_zero _ => "0"
  | S754_infinity s => if s then "-Infinity" else "Infinity"
  | S754_finite _ _ _ =>
      match integral_value x with
      | Some z => if Z.abs z <=? 2 ^ 53 then decimal z else NumberToString_other x
      | None => NumberToString_other x
      end
  end.

Definition DatePrototypeToString (tv : option Z) : string :=
  match tv with
  | Some t => DateToString t
  | None => "Invalid Date"
  end.

(** [ToString(v)], as applied by [String(v)] and by a template literal. *)
Definition ToString (v : value) : string :=
  match v with
  | Null => "null"
  | Undefined => "undefined"
  | Boolean b => if b then "true" else "false"
  | Number x => NumberToString x
  | String_ s => s
  | Date tv => DatePrototypeToString tv
  | Object _ => "[object Object]"
  end.

(** The method call [v.toString()]: a TypeError on null and undefined. *)
Definition call_toString (v : value) : completion string :=
  match v with
  | Null | Undefined => Throw TypeError
  | _ => Normal (ToString v)
  end.

(** The method call [v.toISOString()]. *)
Definition call_toISOString (v : value) : completion string :=
  match v with
  | Date tv => toISOString tv
  | _ => Throw TypeError
  end.

(** [ToNumber(v)], as applied by [Number(v)]. *)
Definition ToNumber (v : value) : number :=
  match v with
  | Null => S754_zero false
  | Undefined => NaN
  | Boolean b => if b then number_of_Z 1 else number_of_Z 0
  | Number x => x
  | String_ s => StringToNumber s
  | Date (Some t) => number_of_Z t
  | Date None => NaN
  | Object _ => NaN
  end.

(** [Date.parse(s)]; the result is a time value, [None] for NaN. *)
Definition DateParse (s : string) : option Z :=
  match parse_iso_utc s with
  | Some t => TimeClip t
  | None => DateParse_other s
  end.

(** The time value of [new Date(v)] for a string or a number [v]. *)
Definition new_Date (v : value) : option Z :=
  match v with
  | String_ s => DateParse s
  | _ => match truncate (ToNumber v) with
         | Some t => TimeClip t
         | None => None
         end
  end.
End conversions.

End ES.

Import ES.

(* ===================================================================== *)
(** ** The service: data model *)
(* ===================================================================== *)

(** The declared type of a column ([DataStoreColumn.type]). *)
Inductive ColumnType : Type := boolean | date | string_ | number_.

#[global] Instance ColumnType_eq_dec : EqDecision ColumnType.
Proof. solve_decision. Defined.

(** Modelled from the spec: the column entity ([./data-store-column.entity]
    is not part of the sources); a Column Schema has a name and a type. *)
Record DataStoreColumn : Type := { name : string; type : ColumnType }.

(** A row object: its own enumerable properties in the order of
    [Object.keys].  Property names of an object are pairwise distinct
    ([wf_row]). *)
Definition Row : Type := list (string * value).

Definition wf_row (r : Row) : Prop := NoDup r.*1.

#[global] Instance wf_row_dec (r : Row) : Decision (wf_row r).
Proof. unfold wf_row. apply _. Defined.

(** [row[key]]. *)
Fixpoint row_get (r : Row) (key : string) : value :=
  match r with
  | [] => Undefined
  | (k, v) :: r' => if decide (key = k) then v else row_get r' key
  end.

(** [row[key] = v]: an existing property keeps its place, a new one is
    added last. *)
Fixpoint row_set (r : Row) (key : string) (v : value) : Row :=
  match r with
  | [] => [(key, v)]
  | (k, v') :: r' =>
      if decide (key = k) then (k, v) :: r' else (k, v') :: row_set r' key v
  end.

(** [new Map(entries)]: a later entry replaces an earlier one of the same
    key. *)
Definition Map_new {V} (entries : list (string * V)) : gmap string V :=
  foldl (λ m kv, <[kv.1 := kv.2]> m) ∅ entries.

(** [new Set(items)]. *)
Definition Set_new (items : list string) : gset string := list_to_set items.

(** Row objects live in a heap and a batch is an array of references, so
    that the writes of [validateRows] are seen by the caller and by every
    other reference to the same object. *)
Definition loc : Type := nat.

(** Modelled from the spec: the data store entity, which is not part of
    the sources: name, owning project, ordered columns. *)
Record DataStore : Type := {
  ds_name : string;
  ds_projectId : string;
  ds_columns : list DataStoreColumn;
}.

Record CreateDataStoreDto : Type := {
  dto_name : string;
  dto_columns : list DataStoreColumn;
}.

Record UpsertDataStoreRowsDto : Type := {
  rows : list loc;
  matchFields : list string;
}.

(** A call received by the row-storage collaborator, with the contents of
    the row objects at the time of the call. *)
Inductive RowsCall : Type :=
  | InsertRowsCall (table : string) (data : list Row) (columns : list DataStoreColumn)
  | UpsertRowsCall (table : string) (data : list Row) (fields : list string)
      (columns : list DataStoreColumn).

Record World : Type := {
  heap : loc → Row;
  columnRepository : string → list DataStoreColumn;
  dataStoreRepository : list DataStore;
  rowsRepository : list RowsCall;
}.

(** Parts of the repository that are not in the sources.  A collaborator
    answers with a result or with the reason of its failure. *)
Class Collaborators : Type := {
  (** [toTableName] of [./utils/sql-utils]. *)
  toTableName : string → string;
  (** What the row-storage collaborator answers, given every call it has
      received so far (the last one is the call being answered). *)
  rowsRepository_answer : list RowsCall → string + value;
  (** [DataStoreRepository.createDataStore(projectId, name, columns)]: its
      answer and the data stores it leaves, given the data stores there
      are. *)
  dataStoreRepository_createDataStore :
    string → string → list DataStoreColumn → list DataStore →
    (string + DataStore) * list DataStore;
}.

Definition answer {A} (a : string + A) : completion A :=
  match a with
  | inl reason => Throw (StorageFailure reason)
  | inr result => Normal result
  end.

(* ===================================================================== *)
(** ** The service: a state and exception monad *)
(* ===================================================================== *)

Definition M (A : Type) : Type := World → completion A * World.

#[global] Instance M_ret : MRet M := λ A a w, (Normal a, w).

#[global] Instance M_bind : MBind M := λ A B f m w,
  match m w with
  | (Normal a, w') => f a w'
  | (Throw e, w') => (Throw e, w')
  end.

Definition throw {A} (e : exn) : M A := λ w, (Throw e, w).

Definition lift {A} (c : completion A) : M A := λ w, (c, w).

(** [for (const x of xs) body]. *)
Fixpoint for_of {A} (xs : list A) (body : A → M unit) : M unit :=
  match xs with
  | [] => mret tt
  | x :: xs' => body x;; for_of xs' body
  end.

Definition Object_keys (row : loc) : M (list string) :=
  λ w, (Normal (heap w row).*1, w).

Definition get (row : loc) (key : string) : M value :=
  λ w, (Normal (row_get (heap w row) key), w).

Definition set_heap (h : loc → Row) (w : World) : World :=
  {| heap := h; columnRepository := columnRepository w;
     dataStoreRepository := dataStoreRepository w;
     rowsRepository := rowsRepository w |}.

Definition put (row : loc) (key : string) (v : value) : M unit :=
  λ w, (Normal tt, set_heap (<[row := row_set (heap w row) key v]> (heap w)) w).

Definition getColumns (dataStoreId : string) : M (list DataStoreColumn) :=
  λ w, (Normal (columnRepository w dataStoreId), w).

(* ===================================================================== *)
(** ** The service: operations *)
(* ===================================================================== *)

Section service.
Context `{Implementation} `{Collaborators}.

(** *** Read path *)

Definition normalizeBoolean (value : value) : ES.value :=
  if String.eqb (typeof value) "boolean" then value
  else if strict_equals value (LNumber 1) || strict_equals value (LString "1")
  then Boolean true
  else if strict_equals value (LNumber 0) || strict_equals value (LString "0")
  then Boolean false
  else Null.

Definition normalizeDate (value : value) : ES.value :=
  match value with
  | Null | Undefined => Null
  | _ =>
      if instanceof_Date value then value
      else if String.eqb (typeof value) "string" || String.eqb (typeof value) "number"
      then match new_Date value with
           | Some t => Date (Some t)   (* !isNaN(parsed.getTime()) *)
           | None => Null
           end
      else Null
  end.

Definition normalizeString (value : value) : ES.value :=
  match value with
  | Null | Undefined => Null
  | _ =>
      if String.eqb (typeof value) "string" then value
      else String_ (ToString value)
  end.

Definition normalizeNumber (value : value) : ES.value :=
  match value with
  | Null | Undefined => Null
  | _ =>
      if String.eqb (typeof value) "number" then value
      else let num := ToNumber value in
           if isNaN num then Null else Number num
  end.

(** The body of the [switch] of [normalizeRows]. *)
Definition normalizeCell (type : option ColumnType) (value : value) : ES.value :=
  match type with
  | Some boolean => normalizeBoolean value
  | Some date => normalizeDate value
  | Some string_ => normalizeString value
  | Some number_ => normalizeNumber value
  | None => value
  end.

Definition normalizeRow (typeMap : gmap string ColumnType) (row : Row) : Row :=
  let normalized := row in   (* { ...row } *)
  foldl (λ normalized '(key, value),
           row_set normalized key (normalizeCell (typeMap !! key) value))
        normalized row.

(** [normalizeRows] builds new row objects and leaves its argument as it
    is, so it is a function of the contents of the rows. *)
Definition normalizeRows (rows : list Row) (columns : list DataStoreColumn)
  : list Row :=
  let typeMap := Map_new ((λ col, (name col, type col)) <$> columns) in
  normalizeRow typeMap <$> rows.

(** *** Write path *)

Definition mismatch (shown : string) (type : string) : exn :=
  UserError ("value '" +:+ shown +:+ "' does not match column type '" +:+ type +:+ "'").

(** The body of the loop over the keys of a row. *)
Definition validateCell (columnNames : gset string)
    (columnTypeMap : gmap string ColumnType) (row : loc) (key : string) : M unit :=
  if negb (bool_decide (key ∈ columnNames)) then
    throw (UserError "unknown column name")
  else
    cell ← get row key;
    match cell with
    | Null => mret tt   (* continue *)
    | _ =>
        match columnTypeMap !! key with
        | Some boolean =>
            if negb (String.eqb (typeof cell) "boolean") then
              shown ← lift (call_toString cell);
              throw (mismatch shown "boolean")
            else mret tt
        | Some date =>
            if negb (instanceof_Date cell) then
              throw (mismatch (ToString cell) "date")
            else
              iso ← lift (call_toISOString cell);
              put row key (String_ iso)
        | Some string_ =>
            if negb (String.eqb (typeof cell) "string") then
              shown ← lift (call_toString cell);
              throw (mismatch shown "string")
            else mret tt
        | Some number_ =>
            if negb (String.eqb (typeof cell) "number") then
              shown ← lift (call_toString cell);
              throw (mismatch shown "number")
            else mret tt
        | None => mret tt
        end
    end.

(** The body of the loop over the rows of a batch. *)
Definition validateRow (columns : list DataStoreColumn)
    (columnNames : gset string) (columnTypeMap : gmap string ColumnType)
    (row : loc) : M unit :=
  keys ← Object_keys row;
  if negb (bool_decide (length columns = length keys)) then
    throw (UserError "mismatched key count")
  else
    for_of keys (validateCell columnNames columnTypeMap row).

Definition validateRows (dataStoreId : string) (rows : list loc) : M unit :=
  columns ← getColumns dataStoreId;
  if bool_decide (length columns = 0%nat) then
    throw (UserError "No columns found for this data store or data store not found")
  else
    let columnNames := Set_new (name <$> columns) in
    let columnTypeMap := Map_new ((λ x, (name x, type x)) <$> columns) in
    for_of rows (validateRow columns columnNames columnTypeMap).

(** The row-storage collaborator: the call is recorded with the current
    contents of the rows, and answered. *)
Definition rowsRepository_call (call : (loc → Row) → RowsCall) : M value :=
  λ w, let calls := (rowsRepository w ++ [call (heap w)])%list in
       (answer (rowsRepository_answer calls),
        {| heap := heap w; columnRepository := columnRepository w;
           dataStoreRepository := dataStoreRepository w;
           rowsRepository := calls |}).

Definition insertRows (dataStoreId : string) (rows : list loc) : M value :=
  validateRows dataStoreId rows;;
  columns ← getColumns dataStoreId;
  rowsRepository_call
    (λ h, InsertRowsCall (toTableName dataStoreId) (h <$> rows) columns).

Definition upsertRows (dataStoreId : string) (dto : UpsertDataStoreRowsDto)
  : M value :=
  validateRows dataStoreId (rows dto);;
  columns ← getColumns dataStoreId;
  rowsRepository_call
    (λ h, UpsertRowsCall (toTableName dataStoreId) (h <$> rows dto)
            (matchFields dto) columns).

(** *** Data stores *)

(** [dataStoreRepository.findOneBy({ name, projectId })] (the repository
    is a TypeORM repository of the data store entities): the first data
    store with that name and that project, or null. *)
Definition findOneBy (name projectId : string) : M (option DataStore) :=
  λ w, (Normal (List.find
                  (λ ds, bool_decide (ds_name ds = name)
                         && bool_decide (ds_projectId ds = projectId))
                  (dataStoreRepository w)), w).

(** [dataStoreRepository.createDataStore(projectId, name, columns)]. *)
Definition repository_createDataStore (projectId name : string)
    (columns : list DataStoreColumn) : M DataStore :=
  λ w, let '(a, stores) :=
         dataStoreRepository_createDataStore projectId name columns
           (dataStoreRepository w) in
       (answer a,
        {| heap := heap w; columnRepository := columnRepository w;
           dataStoreRepository := stores;
           rowsRepository := rowsRepository w |}).

Definition createDataStore (projectId : string) (dto : CreateDataStoreDto)
  : M DataStore :=
  existingTable ← findOneBy (dto_name dto) projectId;
  match existingTable with
  | Some _ =>
      throw (UserError ("Data store with name '" +:+ dto_name dto
                          +:+ "' already exists in this project"))
  | None => repository_createDataStore projectId (dto_name dto) (dto_columns dto)
  end.

End service.

(* ===================================================================== *)
(** ** Lemmas: the Date Time String Format *)
(* ===================================================================== *)

Section date_time_string_format.

(** *** Decimal fields *)

Lemma digit_char_cases (d : Z) :
  digit_char d ∈ ["0"; "1"; "2"; "3"; "4"; "5"; "6"; "7"; "8"; "9"]%char.
Proof.
  unfold digit_char.
  assert (0 <= d mod 10 < 10) as Hd by (apply Z.mod_pos_bound; lia).
  assert (d mod 10 = 0 ∨ d mod 10 = 1 ∨ d mod 10 = 2 ∨ d mod 10 = 3
          ∨ d mod 10 = 4 ∨ d mod 10 = 5 ∨ d mod 10 = 6 ∨ d mod 10 = 7
          ∨ d mod 10 = 8 ∨ d mod 10 = 9) as Hcases by lia.
  repeat (destruct Hcases as [-> | Hcases]; [compute_done|]).
  rewrite Hcases. compute_done.
Qed.

Lemma char_digit_char (d : Z) : char_digit (digit_char d) = Some (d mod 10).
Proof.
  unfold digit_char.
  assert (0 <= d mod 10 < 10) as Hd by (apply Z.mod_pos_bound; lia).
  assert (d mod 10 = 0 ∨ d mod 10 = 1 ∨ d mod 10 = 2 ∨ d mod 10 = 3
          ∨ d mod 10 = 4 ∨ d mod 10 = 5 ∨ d mod 10 = 6 ∨ d mod 10 = 7
          ∨ d mod 10 = 8 ∨ d mod 10 = 9) as Hcases by lia.
  repeat (destruct Hcases as [-> | Hcases]; [vm_compute; reflexivity|]).
  rewrite Hcases. vm_compute. reflexivity.
Qed.

Lemma read_digits_snoc (w : nat) (acc : Z) (s : list ascii) :
  read_digits (S w) acc s =
    match read_digits w acc s with
    | Some (a, c :: r) =>
        match char_digit c with
        | Some d => Some (10 * a + d, r)
        | None => None
        end
    | _ => None
    end.
Proof.
  revert acc s. induction w as [|w IH]; intros acc s.
  { simpl. destruct s as [|c s]; [done|]. by destruct (char_digit c). }
  change (read_digits (S (S w)) acc s)
    with (match s with
          | c :: s' => match char_digit c with
                       | Some d => read_digits (S w) (10 * acc + d) s'
                       | None => None
                       end
          | [] => None
          end).
  destruct s as [|c s]; [done|]. simpl (read_digits (S w) acc (c :: s)).
  destruct (char_digit c) as [d|]; [|done]. apply IH.
Qed.

Lemma read_digits_pad (w : nat) (acc n : Z) (rest : list ascii) :
  read_digits w acc (pad w n ++ rest)
  = Some (acc * 10 ^ Z.of_nat w + n mod 10 ^ Z.of_nat w, rest).
Proof.
  revert n rest. induction w as [|w IH]; intros n rest.
  { simpl. rewrite Z.mod_1_r. do 2 f_equal. lia. }
  rewrite read_digits_snoc. cbn [pad]. rewrite <- app_assoc. cbn [app].
  rewrite IH, char_digit_char. do 2 f_equal.
  rewrite Nat2Z.inj_succ, Z.pow_succ_r by lia.
  rewrite (Z.rem_mul_r n 10 (10 ^ Z.of_nat w)) by lia. lia.
Qed.

Lemma read_digits_field (w : nat) (n : Z) (rest : list ascii) :
  0 <= n < 10 ^ Z.of_nat w →
  read_digits w 0 (pad w n ++ rest) = Some (n, rest).
Proof.
  intros Hn. rewrite read_digits_pad, Z.mod_small by done. do 2 f_equal.
Qed.

Lemma read_iso_year_iso_year (y : Z) (rest : list ascii) :
  -1000000 < y < 1000000 →
  read_iso_year (iso_year y ++ rest) = Some (y, rest).
Proof.
  intros Hy. unfold iso_year.
  destruct ((0 <=? y) && (y <=? 9999)) eqn:Hsmall.
  - apply andb_prop in Hsmall as [H0 H1].
    apply Z.leb_le in H0, H1.
    pose proof (read_digits_field 4 y rest ltac:(simpl; lia)) as Hread.
    cbn [pad app] in *.
    pose proof (digit_char_cases (y / 10 / 10 / 10)) as Hc.
    unfold read_iso_year.
    repeat (apply elem_of_cons in Hc as [Hc|Hc]; [by rewrite Hc in *|]).
    by apply elem_of_nil in Hc.
  - destruct (y <? 0) eqn:Hneg.
    + apply Z.ltb_lt in Hneg. cbn [app read_iso_year].
      rewrite (read_digits_field 6 (- y) rest) by (simpl; lia).
      rewrite (proj2 (Z.eqb_neq _ _)) by lia. do 2 f_equal. lia.
    + apply Z.ltb_ge in Hneg. cbn [app read_iso_year].
      apply read_digits_field. simpl. lia.
Qed.

End date_time_string_format.

Section calendar.

Lemma DayFromYear_succ (y : Z) : DayFromYear (y + 1) = DayFromYear y + DaysInYear y.
Proof.
  unfold DayFromYear, DaysInYear.
  destruct (y mod 4 =? 0) eqn:H4; simpl.
  2: { apply Z.eqb_neq in H4. Z.div_mod_to_equations. lia. }
  apply Z.eqb_eq in H4.
  destruct (y mod 100 =? 0) eqn:H100; simpl.
  2: { apply Z.eqb_neq in H100. Z.div_mod_to_equations. lia. }
  apply Z.eqb_eq in H100.
  destruct (y mod 400 =? 0) eqn:H400; simpl.
  - apply Z.eqb_eq in H400. Z.div_mod_to_equations. lia.
  - apply Z.eqb_neq in H400. Z.div_mod_to_equations. lia.
Qed.

Lemma DaysInYear_cases (y : Z) : DaysInYear y = 365 ∨ DaysInYear y = 366.
Proof.
  unfold DaysInYear.
  destruct (y mod 4 =? 0), (y mod 100 =? 0), (y mod 400 =? 0); simpl; auto.
Qed.

Lemma YearFromDay_estimate (d : Z) :
  let y := 1970 + (400 * d) / 146097 in
  DayFromYear (y - 1) <= d < DayFromYear (y + 2).
Proof. unfold DayFromYear. cbv zeta. Z.div_mod_to_equations. lia. Qed.

(** [YearFromDay d] is the year that contains day [d]. *)
Lemma YearFromDay_spec (d : Z) :
  DayFromYear (YearFromDay d) <= d < DayFromYear (YearFromDay d + 1).
Proof.
  pose proof (YearFromDay_estimate d) as Hest. cbv zeta in Hest.
  unfold YearFromDay.
  set (y := 1970 + 400 * d / 146097) in *.
  destruct (Z.ltb_spec d (DayFromYear y)) as [Hlt|Hge].
  - replace (y - 1 + 1) with y by lia. lia.
  - destruct (Z.leb_spec (DayFromYear (y + 1)) d) as [Hle|Hgt]; [|lia].
    replace (y + 1 + 1) with (y + 2) by lia. lia.
Qed.

Lemma DayFromYear_lt (y y' : Z) : y < y' → DayFromYear y < DayFromYear y'.
Proof. intros Hlt. unfold DayFromYear. Z.div_mod_to_equations. lia. Qed.

(** [YearFromTime(t)] is the largest [y] such that [TimeFromYear(y) <= t]. *)
Lemma YearFromTime_largest (t y : Z) :
  TimeFromYear y <= t ↔ y <= YearFromTime t.
Proof.
  unfold TimeFromYear, YearFromTime.
  pose proof (YearFromDay_spec (Day t)) as [Hlo Hhi].
  assert (DayFromYear y <= Day t ↔ msPerDay * DayFromYear y <= t) as <-.
  { unfold Day, msPerDay. Z.div_mod_to_equations. lia. }
  split.
  - intros Hy. destruct (Z.le_gt_cases y (YearFromDay (Day t))) as [|Hgt]; [done|].
    pose proof (DayFromYear_lt (YearFromDay (Day t)) y Hgt).
    destruct (Z.eq_dec y (YearFromDay (Day t) + 1)) as [->|Hne]; [lia|].
    pose proof (DayFromYear_lt (YearFromDay (Day t) + 1) y ltac:(lia)). lia.
  - intros Hy. destruct (Z.eq_dec y (YearFromDay (Day t))) as [->|Hne]; [done|].
    pose proof (DayFromYear_lt y (YearFromDay (Day t)) ltac:(lia)). lia.
Qed.

Lemma YearFromDay_range (d : Z) :
  -100000000 <= d <= 100000000 → -271822 < YearFromDay d < 275761.
Proof.
  intros Hd. pose proof (YearFromDay_spec d) as Hspec.
  unfold DayFromYear in Hspec. Z.div_mod_to_equations. lia.
Qed.

Lemma DayWithinYear_range (t : Z) :
  0 <= DayWithinYear t < 365 + InLeapYear t.
Proof.
  unfold DayWithinYear, InLeapYear, YearFromTime.
  pose proof (YearFromDay_spec (Day t)) as Hspec.
  rewrite DayFromYear_succ in Hspec.
  destruct (DaysInYear_cases (YearFromDay (Day t))) as [Hy|Hy];
    rewrite Hy in *; simpl; lia.
Qed.

Lemma InLeapYear_cases (t : Z) : InLeapYear t = 0 ∨ InLeapYear t = 1.
Proof. unfold InLeapYear. destruct (_ =? 366); auto. Qed.

(** The month and the date of a day within the year. *)
Lemma month_and_date (leap dy : Z) :
  (leap = 0 ∨ leap = 1) → 0 <= dy < 365 + leap →
  let m := MonthFromDayWithinYear leap dy in
  0 <= m <= 11
  ∧ 1 <= dy - MonthStart leap m + 1
  ∧ dy - MonthStart leap m + 1
    <= (if m =? 11 then 31 else MonthStart leap (m + 1) - MonthStart leap m)
  ∧ dy - MonthStart leap m + 1 <= 31.
Proof.
  intros Hleap Hdy. unfold MonthFromDayWithinYear.
  repeat (match goal with
          | |- context [if ?a <? ?b then _ else _] =>
              destruct (Z.ltb_spec a b)
          end; [cbv zeta; simpl; lia|]).
  cbv zeta. simpl. lia.
Qed.

Lemma time_within_day (t : Z) :
  MakeDate (Day t)
    (MakeTime (HourFromTime t) (MinFromTime t) (SecFromTime t) (msFromTime t)) = t.
Proof.
  unfold MakeDate, MakeTime, Day, HourFromTime, MinFromTime, SecFromTime,
    msFromTime, msPerDay, msPerHour, msPerMinute, msPerSecond.
  Z.div_mod_to_equations. lia.
Qed.

Lemma time_fields_range (t : Z) :
  0 <= HourFromTime t < 24 ∧ 0 <= MinFromTime t < 60
  ∧ 0 <= SecFromTime t < 60 ∧ 0 <= msFromTime t < 1000.
Proof.
  unfold HourFromTime, MinFromTime, SecFromTime, msFromTime, msPerSecond.
  repeat split; apply Z.mod_pos_bound; lia.
Qed.


(** *** [Date.parse] reads back what [toISOString] writes *)

Lemma parse_iso_utc_iso_string (t : Z) :
  Z.abs t <= maxTime → parse_iso_utc (iso_string t) = Some t.
Proof.
  intros Ht. unfold parse_iso_utc, iso_string.
  rewrite list_ascii_of_string_of_list_ascii.
  assert (-100000000 <= Day t <= 100000000) as Hday.
  { unfold Day, msPerDay, maxTime in *. Z.div_mod_to_equations. lia. }
  pose proof (YearFromDay_range (Day t) Hday) as Hyear.
  fold (YearFromTime t) in Hyear.
  pose proof (month_and_date (InLeapYear t) (DayWithinYear t)
                (InLeapYear_cases t) (DayWithinYear_range t)) as Hmd.
  cbv zeta in Hmd. fold (MonthFromTime t) in Hmd. fold (DateFromTime t) in Hmd.
  destruct Hmd as (Hm & Hd1 & Hd2 & Hd31).
  destruct (time_fields_range t) as (Hh & Hmi & Hs & Hms).
  rewrite read_iso_year_iso_year by lia.
  do 6 (cbn [mbind option_bind expect]; rewrite Ascii.eqb_refl;
        cbn [mbind option_bind]; rewrite read_digits_field by (simpl; lia)).
  cbn [mbind option_bind expect]. rewrite Ascii.eqb_refl. cbn [mbind option_bind].
  rewrite Z.add_simpl_r.
  assert (DaysInMonth (YearFromTime t) (MonthFromTime t)
          = if MonthFromTime t =? 11 then 31
            else MonthStart (InLeapYear t) (MonthFromTime t + 1)
                 - MonthStart (InLeapYear t) (MonthFromTime t)) as -> by done.
  repeat (rewrite (proj2 (Z.leb_le _ _)) by lia). cbn [andb].
  f_equal. rewrite <- (time_within_day t) at 8. f_equal.
  unfold MakeDay, DateFromTime, DayWithinYear. fold (InLeapYear t). lia.
Qed.

Lemma DateParse_toISOString `{Implementation} (t : Z) :
  Z.abs t <= maxTime → DateParse (iso_string t) = Some t.
Proof.
  intros Ht. unfold DateParse. rewrite parse_iso_utc_iso_string by done.
  unfold TimeClip. by rewrite (proj2 (Z.leb_le _ _)).
Qed.

End calendar.

(* ===================================================================== *)
(** ** Lemmas: rows, maps, the monad *)
(* ===================================================================== *)

(** [w'] differs from [w] at most in the heap. *)
Definition same_services (w w' : World) : Prop :=
  columnRepository w' = columnRepository w
  ∧ dataStoreRepository w' = dataStoreRepository w
  ∧ rowsRepository w' = rowsRepository w.

Lemma same_services_refl w : same_services w w.
Proof. by repeat split. Qed.

Lemma same_services_trans w1 w2 w3 :
  same_services w1 w2 → same_services w2 w3 → same_services w1 w3.
Proof.
  intros (?&?&?) (?&?&?). repeat split; congruence.
Qed.

Lemma same_services_set_heap h w : same_services w (set_heap h w).
Proof. by repeat split. Qed.

Create HintDb services.
#[global] Hint Resolve same_services_refl same_services_set_heap : services.

Lemma row_get_set_eq (r : Row) key v : row_get (row_set r key v) key = v.
Proof.
  induction r as [|[k v'] r IH]; simpl.
  - by rewrite decide_True.
  - destruct (decide (key = k)) as [->|Hne]; simpl.
    + by rewrite decide_True.
    + by rewrite decide_False.
Qed.

Lemma row_get_set_ne (r : Row) key key' v :
  key' ≠ key → row_get (row_set r key v) key' = row_get r key'.
Proof.
  intros Hne. induction r as [|[k v'] r IH]; simpl.
  - by rewrite decide_False.
  - destruct (decide (key = k)) as [->|Hk]; simpl.
    + by rewrite !(decide_False (P := key' = k)).
    + destruct (decide (key' = k)); [done|apply IH].
Qed.

Lemma row_set_keys (r : Row) key v :
  key ∈ r.*1 → (row_set r key v).*1 = r.*1.
Proof.
  induction r as [|[k v'] r IH]; simpl.
  - by intros ?%elem_of_nil.
  - intros Hin. destruct (decide (key = k)) as [->|Hne]; simpl; [done|].
    f_equal. apply IH. apply elem_of_cons in Hin as [?|?]; [done|assumption].
Qed.

Lemma row_set_get_id (r : Row) key :
  key ∈ r.*1 → row_set r key (row_get r key) = r.
Proof.
  induction r as [|[k v'] r IH]; simpl.
  - by intros ?%elem_of_nil.
  - intros Hin. destruct (decide (key = k)) as [->|Hne]; [done|].
    f_equal. apply IH. apply elem_of_cons in Hin as [?|?]; [done|assumption].
Qed.

Lemma row_get_elem_of (r : Row) key v :
  wf_row r → (key, v) ∈ r → row_get r key = v.
Proof.
  unfold wf_row. induction r as [|[k v'] r IH]; simpl.
  - by intros _ ?%elem_of_nil.
  - intros Hnd Hin. apply NoDup_cons in Hnd as [Hk Hnd].
    apply elem_of_cons in Hin as [Heq|Hin].
    + injection Heq as -> ->. by rewrite decide_True.
    + destruct (decide (key = k)) as [->|Hne]; [|by apply IH].
      exfalso. apply Hk. apply list_elem_of_fmap. by exists (k, v).
Qed.

Lemma row_get_not_elem_of (r : Row) key : key ∉ r.*1 → row_get r key = Undefined.
Proof.
  induction r as [|[k v'] r IH]; simpl; [done|].
  intros Hnin. apply not_elem_of_cons in Hnin as [Hne Hnin].
  rewrite decide_False; auto.
Qed.

(** [Map_new] and the lookups of the service. *)
Lemma Map_new_snoc {V} (entries : list (string * V)) k v :
  Map_new (entries ++ [(k, v)]) = <[k := v]> (Map_new entries).
Proof. unfold Map_new. by rewrite foldl_snoc. Qed.

Lemma Map_new_lookup_None {V} (entries : list (string * V)) k :
  Map_new entries !! k = None ↔ k ∉ entries.*1.
Proof.
  induction entries as [|[k' v'] entries IH] using rev_ind.
  - split; [intros _; apply not_elem_of_nil|done].
  - rewrite Map_new_snoc, fmap_app, not_elem_of_app. simpl.
    destruct (decide (k = k')) as [->|Hne].
    + rewrite lookup_insert_eq. split; [done|]. intros [_ Hk].
      exfalso. apply Hk. apply list_elem_of_singleton. done.
    + rewrite lookup_insert_ne by done. rewrite IH.
      rewrite list_elem_of_singleton. tauto.
Qed.

Lemma Map_new_lookup_is_Some {V} (entries : list (string * V)) k :
  is_Some (Map_new entries !! k) ↔ k ∈ entries.*1.
Proof.
  rewrite <- not_eq_None_Some, Map_new_lookup_None.
  destruct (decide (k ∈ entries.*1)); tauto.
Qed.

Lemma Map_new_lookup_NoDup {V} (entries : list (string * V)) k v :
  NoDup entries.*1 → (k, v) ∈ entries → Map_new entries !! k = Some v.
Proof.
  induction entries as [|[k' v'] entries IH] using rev_ind.
  - by intros _ ?%elem_of_nil.
  - rewrite Map_new_snoc, fmap_app. simpl. intros Hnd Hin.
    apply NoDup_app in Hnd as (Hnd & Hdisj & _).
    apply elem_of_app in Hin as [Hin|Hin].
    + rewrite lookup_insert_ne; [by apply IH|].
      intros <-. apply (Hdisj k'); [|apply list_elem_of_singleton; done].
      apply list_elem_of_fmap. by exists (k', v).
    + apply list_elem_of_singleton in Hin. injection Hin as -> ->.
      by rewrite lookup_insert_eq.
Qed.

(** The declared type of the column of a given name, as the service looks
    it up. *)
Definition column_type (columns : list DataStoreColumn) (key : string)
  : option ColumnType :=
  Map_new ((λ x, (name x, type x)) <$> columns) !! key.

Lemma column_entries_keys (columns : list DataStoreColumn) :
  ((λ x, (name x, type x)) <$> columns).*1 = name <$> columns.
Proof. rewrite <- list_fmap_compose. done. Qed.

Lemma column_type_is_Some columns key :
  is_Some (column_type columns key) ↔ key ∈ name <$> columns.
Proof.
  unfold column_type. by rewrite Map_new_lookup_is_Some, column_entries_keys.
Qed.

Lemma column_type_elem_of columns c :
  NoDup (name <$> columns) → c ∈ columns →
  column_type columns (name c) = Some (type c).
Proof.
  intros Hnd Hin. apply Map_new_lookup_NoDup.
  - by rewrite column_entries_keys.
  - apply list_elem_of_fmap. by exists c.
Qed.

Lemma column_type_Some_elem_of columns key ty :
  column_type columns key = Some ty →
  ∃ c, c ∈ columns ∧ name c = key ∧ type c = ty.
Proof.
  unfold column_type.
  induction columns as [|c columns IH] using rev_ind; [done|].
  rewrite fmap_app. simpl. rewrite Map_new_snoc.
  destruct (decide (key = name c)) as [->|Hne].
  - rewrite lookup_insert_eq. intros [= <-]. exists c. split; [|done].
    apply elem_of_app. right. by apply list_elem_of_singleton.
  - rewrite lookup_insert_ne by done. intros (c' & ? & ?)%IH.
    exists c'. split; [|done]. apply elem_of_app. by left.
Qed.

Lemma elem_of_Set_new (items : list string) key :
  key ∈ Set_new items ↔ key ∈ items.
Proof. unfold Set_new. by rewrite elem_of_list_to_set. Qed.

(* ===================================================================== *)
(** ** Lemmas: the loops of [validateRows] *)
(* ===================================================================== *)

Lemma for_of_app {A} (xs ys : list A) (body : A → M unit) w :
  for_of (xs ++ ys) body w =
    match for_of xs body w with
    | (Normal _, w1) => for_of ys body w1
    | (Throw e, w1) => (Throw e, w1)
    end.
Proof.
  revert w. induction xs as [|x xs IH]; intros w; simpl; [done|].
  unfold mbind, M_bind. destruct (body x w) as [[[]|e] w1]; [apply IH|done].
Qed.

Lemma for_of_cons {A} (x : A) (xs : list A) (body : A → M unit) w :
  for_of (x :: xs) body w =
    match body x w with
    | (Normal _, w1) => for_of xs body w1
    | (Throw e, w1) => (Throw e, w1)
    end.
Proof. simpl. unfold mbind, M_bind. by destruct (body x w) as [[[]|e] w1]. Qed.

Section validation.
Context `{Implementation}.

(** What the [switch] of [validateRows] does with one non-missing cell: the
    exception it raises, or the value it stores in the row ([None] when it
    stores nothing). *)
Definition check_cell (ty : option ColumnType) (cell : value)
  : completion (option value) :=
  match cell with
  | Null => Normal None
  | _ =>
      match ty with
      | Some boolean =>
          if String.eqb (typeof cell) "boolean" then Normal None
          else match call_toString cell with
               | Normal shown => Throw (mismatch shown "boolean")
               | Throw e => Throw e
               end
      | Some date =>
          if instanceof_Date cell then
            match call_toISOString cell with
            | Normal iso => Normal (Some (String_ iso))
            | Throw e => Throw e
            end
          else Throw (mismatch (ToString cell) "date")
      | Some string_ =>
          if String.eqb (typeof cell) "string" then Normal None
          else match call_toString cell with
               | Normal shown => Throw (mismatch shown "string")
               | Throw e => Throw e
               end
      | Some number_ =>
          if String.eqb (typeof cell) "number" then Normal None
          else match call_toString cell with
               | Normal shown => Throw (mismatch shown "number")
               | Throw e => Throw e
               end
      | None => Normal None
      end
  end.

Lemma validateCell_spec names tmap (l : loc) key w :
  validateCell names tmap l key w =
    if bool_decide (key ∈ names) then
      match check_cell (tmap !! key) (row_get (heap w l) key) with
      | Throw e => (Throw e, w)
      | Normal None => (Normal tt, w)
      | Normal (Some v) =>
          (Normal tt, set_heap (<[l := row_set (heap w l) key v]> (heap w)) w)
      end
    else (Throw (UserError "unknown column name"), w).
Proof.
  unfold validateCell, check_cell.
  destruct (bool_decide (key ∈ names)); simpl; [|done].
  unfold mbind, M_bind, get. simpl.
  destruct (row_get (heap w l) key) as [| |b|x|s|tv|o] eqn:Hcell;
    destruct (tmap !! key) as [[]|]; simpl; try done.
  all: destruct tv; done.
Qed.

(** The loop over the keys of one row, on the contents of that row. *)
Fixpoint check_keys (names : gset string) (tmap : gmap string ColumnType)
    (keys : list string) (r : Row) : completion unit * Row :=
  match keys with
  | [] => (Normal tt, r)
  | key :: keys' =>
      if bool_decide (key ∈ names) then
        match check_cell (tmap !! key) (row_get r key) with
        | Throw e => (Throw e, r)
        | Normal None => check_keys names tmap keys' r
        | Normal (Some v) => check_keys names tmap keys' (row_set r key v)
        end
      else (Throw (UserError "unknown column name"), r)
  end.

Lemma check_keys_keys names tmap keys r :
  keys ⊆ r.*1 → (check_keys names tmap keys r).2.*1 = r.*1.
Proof.
  revert r. induction keys as [|key keys IH]; intros r Hsub; simpl; [done|].
  assert (key ∈ r.*1) by (apply Hsub; left).
  assert (keys ⊆ r.*1) by (intros k ?; apply Hsub; by right).
  destruct (bool_decide (key ∈ names)); [|done].
  destruct (check_cell (tmap !! key) (row_get r key)) as [[v|]|e]; simpl; auto.
  rewrite IH; rewrite row_set_keys; done.
Qed.

Lemma for_of_validateCell names tmap (l : loc) keys w :
  ∃ w', for_of keys (validateCell names tmap l) w
          = ((check_keys names tmap keys (heap w l)).1, w')
        ∧ same_services w w'
        ∧ heap w' l = (check_keys names tmap keys (heap w l)).2
        ∧ ∀ l', l' ≠ l → heap w' l' = heap w l'.
Proof.
  revert w. induction keys as [|key keys IH]; intros w.
  { exists w. simpl. auto with services. }
  rewrite for_of_cons, validateCell_spec. simpl.
  destruct (bool_decide (key ∈ names)); [|exists w; auto with services].
  destruct (check_cell (tmap !! key) (row_get (heap w l) key)) as [[v|]|e].
  - destruct (IH (set_heap (<[l:=row_set (heap w l) key v]> (heap w)) w))
      as (w' & -> & Hs & Hl & Hothers).
    simpl in *. rewrite fn_lookup_insert in *.
    exists w'. repeat split; try done; try apply Hs.
    intros l' Hne. rewrite Hothers by done. by rewrite fn_lookup_insert_ne.
  - apply IH.
  - exists w. auto with services.
Qed.

(** The loop body for one row, on the contents of that row. *)
Definition check_row (columns : list DataStoreColumn) (r : Row)
  : completion unit * Row :=
  if bool_decide (length columns = length r.*1) then
    check_keys (Set_new (name <$> columns))
      (Map_new ((λ x, (name x, type x)) <$> columns)) r.*1 r
  else (Throw (UserError "mismatched key count"), r).

Lemma validateRow_spec columns (l : loc) w :
  ∃ w', validateRow columns (Set_new (name <$> columns))
          (Map_new ((λ x, (name x, type x)) <$> columns)) l w
          = ((check_row columns (heap w l)).1, w')
        ∧ same_services w w'
        ∧ heap w' l = (check_row columns (heap w l)).2
        ∧ ∀ l', l' ≠ l → heap w' l' = heap w l'.
Proof.
  unfold validateRow, check_row, mbind, M_bind, Object_keys. simpl.
  destruct (bool_decide (length columns = length (heap w l).*1)); simpl.
  - apply for_of_validateCell.
  - exists w. auto with services.
Qed.

Lemma check_row_keys columns r : (check_row columns r).2.*1 = r.*1.
Proof.
  unfold check_row. destruct (bool_decide _); [|done].
  by apply check_keys_keys.
Qed.

(** The loop over the batch, on heaps. *)
Fixpoint check_rows (columns : list DataStoreColumn) (batch : list loc)
    (h : loc → Row) : completion unit * (loc → Row) :=
  match batch with
  | [] => (Normal tt, h)
  | l :: batch' =>
      match check_row columns (h l) with
      | (Normal _, r) => check_rows columns batch' (<[l := r]> h)
      | (Throw e, r) => (Throw e, <[l := r]> h)
      end
  end.

Lemma check_rows_ext columns batch h1 h2 :
  (∀ l, h1 l = h2 l) →
  (check_rows columns batch h1).1 = (check_rows columns batch h2).1
  ∧ ∀ l, (check_rows columns batch h1).2 l = (check_rows columns batch h2).2 l.
Proof.
  revert h1 h2. induction batch as [|l batch IH]; intros h1 h2 Hext; simpl.
  { done. }
  rewrite <- (Hext l).
  assert (∀ r l', <[l:=r]> h1 l' = <[l:=r]> h2 l') as Hext'.
  { intros r l'. destruct (decide (l = l')) as [->|Hne].
    - by rewrite !fn_lookup_insert.
    - by rewrite !fn_lookup_insert_ne. }
  destruct (check_row columns (h1 l)) as [[[]|e] r]; simpl; [by apply IH|].
  split; [done|apply Hext'].
Qed.

Lemma for_of_validateRow columns batch w :
  ∃ w', for_of batch (validateRow columns (Set_new (name <$> columns))
                        (Map_new ((λ x, (name x, type x)) <$> columns))) w
          = ((check_rows columns batch (heap w)).1, w')
        ∧ same_services w w'
        ∧ ∀ l, heap w' l = (check_rows columns batch (heap w)).2 l.
Proof.
  revert w. induction batch as [|l batch IH]; intros w.
  { exists w. simpl. auto with services. }
  rewrite for_of_cons. simpl.
  destruct (validateRow_spec columns l w) as (w1 & -> & Hs1 & Hl & Hothers).
  assert (∀ l', heap w1 l' = <[l:=(check_row columns (heap w l)).2]> (heap w) l')
    as Hext.
  { intros l'. destruct (decide (l = l')) as [<-|Hne].
    - by rewrite fn_lookup_insert.
    - rewrite fn_lookup_insert_ne by done. by apply Hothers. }
  destruct (check_row columns (heap w l)) as [[[]|e] r]; simpl in *.
  - destruct (IH w1) as (w' & -> & Hs & Hheap).
    destruct (check_rows_ext columns batch _ _ Hext) as [Hc Hh].
    exists w'. rewrite Hc. split; [done|].
    split; [by eapply same_services_trans|].
    intros l'. by rewrite Hheap, Hh.
  - exists w1. auto.
Qed.

(** [validateRows], on heaps. *)
Theorem validateRows_spec dataStoreId batch w :
  let columns := columnRepository w dataStoreId in
  ∃ w', validateRows dataStoreId batch w =
          (if bool_decide (length columns = 0%nat) then
             Throw (UserError
                      "No columns found for this data store or data store not found")
           else (check_rows columns batch (heap w)).1, w')
        ∧ same_services w w'
        ∧ ∀ l, heap w' l =
                 if bool_decide (length columns = 0%nat) then heap w l
                 else (check_rows columns batch (heap w)).2 l.
Proof.
  intros columns. unfold validateRows, mbind, M_bind, getColumns. simpl.
  fold columns. destruct (bool_decide (length columns = 0%nat)).
  - exists w. auto with services.
  - apply for_of_validateRow.
Qed.

Lemma validateRows_nonempty dataStoreId batch w :
  columnRepository w dataStoreId ≠ [] →
  ∃ w', validateRows dataStoreId batch w =
          ((check_rows (columnRepository w dataStoreId) batch (heap w)).1, w')
        ∧ same_services w w'
        ∧ ∀ l, heap w' l =
                 (check_rows (columnRepository w dataStoreId) batch (heap w)).2 l.
Proof.
  intros Hne.
  destruct (validateRows_spec dataStoreId batch w) as (w' & Hrun & Hs & Hheap).
  cbv zeta in *.
  assert (bool_decide (length (columnRepository w dataStoreId) = 0%nat) = false)
    as Hb by (apply bool_decide_eq_false_2; by intros ?%nil_length_inv).
  rewrite Hb in Hrun. exists w'. split; [done|]. split; [done|].
  intros l. by rewrite Hheap, Hb.
Qed.

(** *** Accepted cells and the stored form of a row *)

(** The runtime type of a value is the declared type of a column. *)
Definition runtime_type_matches (ty : ColumnType) (v : value) : bool :=
  match ty, v with
  | boolean, Boolean _ | date, Date _ | string_, String_ _ | number_, Number _ => true
  | _, _ => false
  end.

(** A cell that passes the check of its column: null, or of the declared
    type and, for a date, a valid one. *)
Definition cell_accepted (ty : option ColumnType) (v : value) : bool :=
  match v, ty with
  | Null, _ => true
  | _, None => true
  | Date tv, Some date => bool_decide (is_Some tv)
  | _, Some ty => runtime_type_matches ty v
  end.

(** The value stored for an accepted cell: a date becomes its ISO string. *)
Definition stored_cell (ty : option ColumnType) (v : value) : value :=
  match ty, v with
  | Some date, Date (Some t) => String_ (iso_string t)
  | _, _ => v
  end.

Definition stored_row (columns : list DataStoreColumn) (r : Row) : Row :=
  (λ kv, (kv.1, stored_cell (column_type columns kv.1) kv.2)) <$> r.

Lemma check_cell_accepted ty v :
  cell_accepted ty v = true →
  check_cell ty v =
    Normal (match ty, v with
            | Some date, Date (Some t) => Some (String_ (iso_string t))
            | _, _ => None
            end).
Proof.
  destruct v as [| |b|x|s|[t|]|o], ty as [[]|]; simpl; try done.
Qed.

Lemma check_cell_rejected ty v :
  cell_accepted ty v = false → ∃ e, check_cell ty v = Throw e.
Proof.
  destruct v as [| |b|x|s|[t|]|o], ty as [[]|]; simpl; try done; eauto.
Qed.

Lemma check_cell_Normal ty v o :
  check_cell ty v = Normal o → cell_accepted ty v = true.
Proof.
  destruct (cell_accepted ty v) eqn:Hacc; [done|].
  destruct (check_cell_rejected _ _ Hacc) as [e ->]. done.
Qed.

Lemma stored_cell_accepted_idemp ty v :
  stored_cell ty (stored_cell ty v) = stored_cell ty v.
Proof. destruct ty as [[]|], v as [| |b|x|s|[t|]|o]; done. Qed.

Lemma stored_cell_accepted_twice ty v :
  cell_accepted ty v = true → cell_accepted ty (stored_cell ty v) = true →
  stored_cell ty v = v.
Proof. destruct ty as [[]|], v as [| |b|x|s|[t|]|o]; done. Qed.

(** The loop over the keys, entry by entry: the part of the row that has
    been gone through is in its stored form, the rest is untouched. *)
Fixpoint check_entries (columns : list DataStoreColumn) (r : Row)
  : completion unit * Row :=
  match r with
  | [] => (Normal tt, [])
  | (k, v) :: r' =>
      if bool_decide (k ∈ name <$> columns) then
        if cell_accepted (column_type columns k) v then
          let '(c, r'') := check_entries columns r' in
          (c, (k, stored_cell (column_type columns k) v) :: r'')
        else (match check_cell (column_type columns k) v with
              | Throw e => Throw e
              | Normal _ => Normal tt
              end, r)
      else (Throw (UserError "unknown column name"), r)
  end.

Lemma row_get_app_r (r1 r2 : Row) key :
  key ∉ r1.*1 → row_get (r1 ++ r2) key = row_get r2 key.
Proof.
  induction r1 as [|[k v] r1 IH]; simpl; [done|].
  intros [Hne Hnin]%not_elem_of_cons. rewrite decide_False by done. auto.
Qed.

Lemma row_set_app_r (r1 r2 : Row) key v :
  key ∉ r1.*1 → row_set (r1 ++ r2) key v = r1 ++ row_set r2 key v.
Proof.
  induction r1 as [|[k v'] r1 IH]; simpl; [done|].
  intros [Hne Hnin]%not_elem_of_cons. rewrite decide_False by done.
  f_equal. auto.
Qed.

Lemma check_keys_entries columns (r1 r2 : Row) :
  NoDup (r1 ++ r2).*1 →
  check_keys (Set_new (name <$> columns))
    (Map_new ((λ x, (name x, type x)) <$> columns)) r2.*1 (r1 ++ r2)
  = ((check_entries columns r2).1, r1 ++ (check_entries columns r2).2).
Proof.
  revert r1. induction r2 as [|[k v] r2 IH]; intros r1 Hnd; simpl.
  { by rewrite app_nil_r. }
  assert (k ∉ r1.*1) as Hk.
  { rewrite fmap_app in Hnd. apply NoDup_app in Hnd as (_ & Hdisj & _).
    intros Hin. apply (Hdisj k Hin). simpl. left. }
  rewrite row_get_app_r by done. simpl. rewrite decide_True by done.
  rewrite (bool_decide_ext _ (k ∈ name <$> columns)) by apply elem_of_Set_new.
  destruct (bool_decide (k ∈ name <$> columns)); [|done].
  change (Map_new ((λ x, (name x, type x)) <$> columns) !! k)
    with (column_type columns k).
  destruct (cell_accepted (column_type columns k) v) eqn:Hacc.
  - rewrite (check_cell_accepted _ _ Hacc).
    assert (∀ v', NoDup ((r1 ++ [(k, v')]) ++ r2).*1) as Hnd'.
    { intros v'. rewrite <- app_assoc. simpl.
      rewrite fmap_app in *. done. }
    assert (∀ v', check_keys (Set_new (name <$> columns))
                    (Map_new ((λ x, (name x, type x)) <$> columns))
                    r2.*1 (r1 ++ (k, v') :: r2)
                  = ((check_entries columns r2).1,
                     r1 ++ (k, v') :: (check_entries columns r2).2)) as Hrec.
    { intros v'. specialize (IH (r1 ++ [(k, v')]) (Hnd' v')).
      rewrite <- !app_assoc in IH. done. }
    destruct (check_entries columns r2) as [c r2'] eqn:Hr2. simpl in *.
    destruct (column_type columns k) as [[]|] eqn:Hty; simpl;
      try apply Hrec.
    destruct v as [| |b|x|s|[t|]|o]; simpl; try apply Hrec; try done.
    rewrite row_set_app_r by done. simpl. rewrite decide_True by done.
    apply Hrec.
  - destruct (check_cell_rejected _ _ Hacc) as [e ->]. done.
Qed.

Lemma check_row_entries columns r :
  wf_row r →
  check_row columns r =
    if bool_decide (length columns = length r) then check_entries columns r
    else (Throw (UserError "mismatched key count"), r).
Proof.
  intros Hwf. unfold check_row. rewrite length_fmap.
  destruct (bool_decide _); [|done].
  pose proof (check_keys_entries columns [] r Hwf) as Heq. simpl in Heq.
  rewrite Heq. by destruct (check_entries columns r).
Qed.

(** A row every entry of which passes. *)
Definition entries_accepted (columns : list DataStoreColumn) (r : Row) : Prop :=
  Forall (λ kv, kv.1 ∈ name <$> columns
                ∧ cell_accepted (column_type columns kv.1) kv.2 = true) r.

#[global] Instance entries_accepted_dec columns r :
  Decision (entries_accepted columns r).
Proof. unfold entries_accepted. apply _. Defined.

Lemma entries_accepted_elem_of columns r :
  entries_accepted columns r ↔
  ∀ k v, (k, v) ∈ r →
    k ∈ name <$> columns ∧ cell_accepted (column_type columns k) v = true.
Proof.
  unfold entries_accepted. rewrite Forall_forall. split.
  - intros Hall k v Hin. apply (Hall (k, v) Hin).
  - intros Hall [k v] Hin. by apply Hall.
Qed.

Lemma check_entries_accepted columns r :
  entries_accepted columns r →
  check_entries columns r = (Normal tt, stored_row columns r).
Proof.
  induction r as [|[k v] r IH]; intros Hacc; simpl; [done|].
  apply Forall_cons in Hacc as [[Hk Hv] Hacc]. simpl in Hk, Hv.
  rewrite bool_decide_eq_true_2 by done. rewrite Hv.
  by rewrite IH.
Qed.

Lemma check_entries_Normal columns r r' :
  check_entries columns r = (Normal tt, r') →
  entries_accepted columns r ∧ r' = stored_row columns r.
Proof.
  revert r'. induction r as [|[k v] r IH]; intros r'; simpl.
  { intros [= <-]. split; [|done]. constructor. }
  destruct (bool_decide (k ∈ name <$> columns)) eqn:Hk; [|done].
  apply bool_decide_eq_true_1 in Hk.
  destruct (cell_accepted (column_type columns k) v) eqn:Hv.
  - destruct (check_entries columns r) as [c r''].
    intros [= -> <-]. destruct (IH r'' eq_refl) as [Hacc ->].
    split; [|done]. by constructor.
  - destruct (check_cell_rejected _ _ Hv) as [e ->]. done.
Qed.

(** Entries that pass are put in their stored form, and the check goes on
    with the entries after them: the first entry that fails decides the
    exception. *)
Lemma check_entries_app columns r1 r2 :
  entries_accepted columns r1 →
  check_entries columns (r1 ++ r2) =
    ((check_entries columns r2).1,
     stored_row columns r1 ++ (check_entries columns r2).2).
Proof.
  induction r1 as [|[k1 v1] r1 IH]; intros Hacc.
  { unfold stored_row. cbn [fmap list_fmap app].
    by destruct (check_entries columns r2). }
  apply Forall_cons in Hacc as [[Hk Hv] Hacc]. simpl in Hk, Hv.
  change (((k1, v1) :: r1) ++ r2) with ((k1, v1) :: (r1 ++ r2)).
  cbn [check_entries]. rewrite bool_decide_eq_true_2 by done. rewrite Hv.
  by rewrite IH.
Qed.

(** *** The batch *)

Lemma stored_row_keys columns r : (stored_row columns r).*1 = r.*1.
Proof. unfold stored_row. rewrite <- list_fmap_compose. done. Qed.

Lemma stored_row_length columns r : length (stored_row columns r) = length r.
Proof. unfold stored_row. by rewrite length_fmap. Qed.

Lemma stored_row_idemp columns r :
  stored_row columns (stored_row columns r) = stored_row columns r.
Proof.
  unfold stored_row. rewrite <- list_fmap_compose. apply list_fmap_ext.
  intros i [k v] _. simpl. by rewrite stored_cell_accepted_idemp.
Qed.

Lemma stored_row_wf columns r : wf_row r → wf_row (stored_row columns r).
Proof. unfold wf_row. by rewrite stored_row_keys. Qed.

Lemma stored_row_get columns r key :
  row_get (stored_row columns r) key
  = stored_cell (column_type columns key) (row_get r key).
Proof.
  induction r as [|[k v] r IH]; simpl.
  - by destruct (column_type columns key) as [[]|].
  - destruct (decide (key = k)) as [->|Hne]; [done|apply IH].
Qed.

(** A row that passes: as many keys as columns, every entry accepted. *)
Definition row_accepted (columns : list DataStoreColumn) (r : Row) : Prop :=
  length columns = length r ∧ entries_accepted columns r.

Lemma check_row_accepted columns r :
  wf_row r → row_accepted columns r →
  check_row columns r = (Normal tt, stored_row columns r).
Proof.
  intros Hwf [Hlen Hacc]. rewrite check_row_entries by done.
  rewrite bool_decide_eq_true_2 by done. by apply check_entries_accepted.
Qed.

Lemma check_row_Normal columns r r' :
  wf_row r → check_row columns r = (Normal tt, r') →
  row_accepted columns r ∧ r' = stored_row columns r.
Proof.
  intros Hwf. rewrite check_row_entries by done.
  destruct (bool_decide (length columns = length r)) eqn:Hlen; [|done].
  apply bool_decide_eq_true_1 in Hlen.
  intros [Hacc ->]%check_entries_Normal. done.
Qed.

Lemma stored_row_accepted_twice columns r :
  entries_accepted columns r → entries_accepted columns (stored_row columns r) →
  stored_row columns r = r.
Proof.
  rewrite !entries_accepted_elem_of. intros Hacc Hacc'. unfold stored_row.
  rewrite <- (list_fmap_id r) at 2. apply list_fmap_ext.
  intros i [k v] Hi. simpl. f_equal.
  apply list_elem_of_lookup_2 in Hi.
  apply stored_cell_accepted_twice; [by apply (Hacc k v)|].
  apply (Hacc' k). apply list_elem_of_fmap. by exists (k, v).
Qed.

Lemma check_rows_app columns pre post h :
  check_rows columns (pre ++ post) h =
    match check_rows columns pre h with
    | (Normal _, h1) => check_rows columns post h1
    | (Throw e, h1) => (Throw e, h1)
    end.
Proof.
  revert h. induction pre as [|l pre IH]; intros h; simpl; [done|].
  destruct (check_row columns (h l)) as [[[]|e] r]; [apply IH|done].
Qed.

Lemma check_rows_keys columns batch h l :
  ((check_rows columns batch h).2 l).*1 = (h l).*1.
Proof.
  revert h. induction batch as [|l0 batch IH]; intros h; simpl; [done|].
  pose proof (check_row_keys columns (h l0)) as Hk.
  destruct (check_row columns (h l0)) as [[[]|e] r]; simpl in *.
  - rewrite IH. destruct (decide (l0 = l)) as [->|Hne].
    + by rewrite fn_lookup_insert.
    + by rewrite fn_lookup_insert_ne.
  - destruct (decide (l0 = l)) as [->|Hne].
    + by rewrite fn_lookup_insert.
    + by rewrite fn_lookup_insert_ne.
Qed.

Lemma check_rows_frame columns batch h l :
  l ∉ batch → (check_rows columns batch h).2 l = h l.
Proof.
  revert h. induction batch as [|l0 batch IH]; intros h; simpl; [done|].
  intros [Hne Hnin]%not_elem_of_cons.
  destruct (check_row columns (h l0)) as [[[]|e] r]; simpl.
  - rewrite IH by done. by rewrite fn_lookup_insert_ne.
  - by rewrite fn_lookup_insert_ne.
Qed.

(** A batch that passes: every row is accepted, and ends in its stored
    form, whether or not a row object occurs more than once. *)
Lemma check_rows_Normal columns batch h :
  (∀ l, l ∈ batch → wf_row (h l)) →
  (check_rows columns batch h).1 = Normal tt →
  (∀ l, l ∈ batch → row_accepted columns (h l))
  ∧ ∀ l, (check_rows columns batch h).2 l =
           if bool_decide (l ∈ batch) then stored_row columns (h l) else h l.
Proof.
  revert h. induction batch as [|l0 batch IH]; intros h Hwf; simpl.
  { intros _. split; [by intros l ?%elem_of_nil|done]. }
  destruct (check_row columns (h l0)) as [[[]|e] r] eqn:Hrow; [|done].
  apply check_row_Normal in Hrow as [Hacc0 ->]; [|apply Hwf; left].
  intros Hok.
  destruct (IH (<[l0:=stored_row columns (h l0)]> h)) as [Hacc Hheap]; [|done|].
  { intros l Hl. destruct (decide (l0 = l)) as [->|Hne].
    - rewrite fn_lookup_insert. apply stored_row_wf, Hwf. left.
    - rewrite fn_lookup_insert_ne by done. apply Hwf. by right. }
  split.
  - intros l [->|Hl]%elem_of_cons; [done|].
    specialize (Hacc l Hl). destruct (decide (l0 = l)) as [->|Hne]; [done|].
    by rewrite fn_lookup_insert_ne in Hacc.
  - intros l. rewrite Hheap. destruct (decide (l0 = l)) as [->|Hne].
    + rewrite fn_lookup_insert, stored_row_idemp.
      rewrite (bool_decide_eq_true_2 (l ∈ l :: batch)) by left.
      by destruct (bool_decide (l ∈ batch)).
    + rewrite fn_lookup_insert_ne by done.
      rewrite (bool_decide_ext (l ∈ l0 :: batch) (l ∈ batch)); [done|].
      rewrite elem_of_cons. split; [intros [?|?]; [congruence|done]|by right].
Qed.

(** No row object with a date to rewrite occurs a second time. *)
Fixpoint no_shared_dates (columns : list DataStoreColumn) (h : loc → Row)
    (batch : list loc) : Prop :=
  match batch with
  | [] => True
  | l :: batch' =>
      (l ∈ batch' → stored_row columns (h l) = h l)
      ∧ no_shared_dates columns h batch'
  end.

#[global] Instance no_shared_dates_dec columns h batch :
  Decision (no_shared_dates columns h batch).
Proof. induction batch; simpl; apply _. Defined.

Lemma no_shared_dates_NoDup columns h batch :
  NoDup batch → no_shared_dates columns h batch.
Proof.
  induction 1 as [|l batch Hl Hnd IH]; simpl; [done|]. split; [done|apply IH].
Qed.

Lemma no_shared_dates_stored columns h batch l0 :
  no_shared_dates columns h batch →
  no_shared_dates columns (<[l0:=stored_row columns (h l0)]> h) batch.
Proof.
  induction batch as [|l batch IH]; simpl; [done|].
  intros [Hl Hrest]. split; [|by apply IH].
  intros Hin. destruct (decide (l0 = l)) as [->|Hne].
  - by rewrite fn_lookup_insert, stored_row_idemp.
  - rewrite fn_lookup_insert_ne by done. auto.
Qed.

Lemma check_rows_accepted columns batch h :
  (∀ l, l ∈ batch → wf_row (h l) ∧ row_accepted columns (h l)) →
  no_shared_dates columns h batch →
  (check_rows columns batch h).1 = Normal tt.
Proof.
  revert h. induction batch as [|l0 batch IH]; intros h Hrows Hshared; simpl.
  { done. }
  destruct (Hrows l0) as [Hwf0 Hacc0]; [left|].
  rewrite check_row_accepted by done.
  destruct Hshared as [Hl0 Hshared].
  apply IH; [|by apply no_shared_dates_stored].
  intros l Hl. destruct (decide (l0 = l)) as [->|Hne].
  - rewrite fn_lookup_insert, Hl0 by done. done.
  - rewrite fn_lookup_insert_ne by done. apply Hrows. by right.
Qed.

(** *** Failures *)

Lemma check_keys_unknown names tmap keys r key :
  key ∈ keys → key ∉ names → ∃ e, (check_keys names tmap keys r).1 = Throw e.
Proof.
  revert r. induction keys as [|k keys IH]; intros r Hin Hnin.
  { by apply elem_of_nil in Hin. }
  simpl. destruct (decide (k ∈ names)) as [Hk|Hk].
  - rewrite bool_decide_eq_true_2 by done.
    apply elem_of_cons in Hin as [->|Hin]; [done|].
    destruct (check_cell (tmap !! k) (row_get r k)) as [[v|]|e]; eauto.
  - rewrite bool_decide_eq_false_2 by done. eauto.
Qed.

(** A row whose keys alone make the check fail makes the batch fail. *)
Lemma check_rows_Throw columns batch h l :
  l ∈ batch →
  (∀ r, r.*1 = (h l).*1 → ∃ e, (check_row columns r).1 = Throw e) →
  ∃ e, (check_rows columns batch h).1 = Throw e.
Proof.
  revert h. induction batch as [|l0 batch IH]; intros h Hin Hbad.
  { by apply elem_of_nil in Hin. }
  simpl. destruct (check_row columns (h l0)) as [[[]|e] r] eqn:Hrow; [|eauto].
  destruct (decide (l0 = l)) as [->|Hne].
  { destruct (Hbad (h l) eq_refl) as [e He]. rewrite Hrow in He. done. }
  apply elem_of_cons in Hin as [->|Hin]; [done|].
  apply IH; [done|]. by rewrite fn_lookup_insert_ne.
Qed.

Lemma check_row_key_count columns r :
  length r.*1 ≠ length columns →
  check_row columns r = (Throw (UserError "mismatched key count"), r).
Proof.
  intros Hlen. unfold check_row. by rewrite bool_decide_eq_false_2.
Qed.

Lemma check_row_unknown columns r key :
  key ∈ r.*1 → key ∉ name <$> columns → ∃ e, (check_row columns r).1 = Throw e.
Proof.
  intros Hin Hnin. unfold check_row. destruct (bool_decide _); [|eauto].
  apply (check_keys_unknown _ _ _ _ key); [done|]. by rewrite elem_of_Set_new.
Qed.

(** The rows that come after a batch that passes. *)
Lemma validateRows_app dataStoreId pre rest w w1 :
  let columns := columnRepository w dataStoreId in
  columns ≠ [] →
  validateRows dataStoreId pre w = (Normal tt, w1) →
  ∃ w', validateRows dataStoreId (pre ++ rest) w
          = ((check_rows columns rest (heap w1)).1, w')
        ∧ same_services w w'
        ∧ ∀ l, heap w' l = (check_rows columns rest (heap w1)).2 l.
Proof.
  intros columns Hne Hpre.
  destruct (validateRows_nonempty dataStoreId pre w Hne) as (w1' & Hrun1 & _ & Hh1).
  rewrite Hpre in Hrun1. injection Hrun1 as Hok <-.
  destruct (validateRows_nonempty dataStoreId (pre ++ rest) w Hne)
    as (w' & Hrun & Hs & Hh).
  fold columns in Hok, Hh1, Hrun, Hh.
  rewrite check_rows_app in Hrun, Hh.
  destruct (check_rows columns pre (heap w)) as [[[]|e] h1]; [|done].
  simpl in Hh1.
  destruct (check_rows_ext columns rest h1 (heap w1)) as [Hc Hext]; [done|].
  exists w'. rewrite <- Hc. split; [done|]. split; [done|].
  intros l. by rewrite Hh, Hext.
Qed.

(** A batch with a row that the check rejects for its keys fails. *)
Lemma validateRows_Throw dataStoreId batch w l :
  let columns := columnRepository w dataStoreId in
  l ∈ batch →
  (∀ r, r.*1 = (heap w l).*1 → ∃ e, (check_row columns r).1 = Throw e) →
  ∃ e w', validateRows dataStoreId batch w = (Throw e, w').
Proof.
  intros columns Hin Hbad.
  destruct (validateRows_spec dataStoreId batch w) as (w' & Hrun & _).
  cbv zeta in Hrun. fold columns in Hrun.
  destruct (bool_decide (length columns = 0%nat)); [eauto|].
  destruct (check_rows_Throw columns batch (heap w) l Hin Hbad) as [e He].
  rewrite He in Hrun. eauto.
Qed.

(** A batch that passes holds no row with an unknown key. *)
Lemma validateRows_Normal_known dataStoreId batch w w1 l key :
  validateRows dataStoreId batch w = (Normal tt, w1) →
  l ∈ batch → key ∈ (heap w l).*1 →
  key ∈ name <$> columnRepository w dataStoreId.
Proof.
  intros Hrun Hl Hkey.
  destruct (decide (key ∈ name <$> columnRepository w dataStoreId)) as [|Hnin];
    [done|exfalso].
  destruct (validateRows_Throw dataStoreId batch w l Hl) as (e & w' & He).
  - intros r Hr. apply (check_row_unknown _ _ key); [by rewrite Hr|done].
  - rewrite Hrun in He. done.
Qed.

(** The check only ever replaces a cell by its stored form. *)
Lemma check_keys_get names tmap keys r k :
  row_get (check_keys names tmap keys r).2 k = row_get r k
  ∨ row_get (check_keys names tmap keys r).2 k = stored_cell (tmap !! k) (row_get r k).
Proof.
  revert r. induction keys as [|key keys IH]; intros r; simpl; [by left|].
  destruct (bool_decide (key ∈ names)); [|by left].
  destruct (check_cell (tmap !! key) (row_get r key)) as [[v|]|e] eqn:Hcell;
    simpl; [|apply IH|by left].
  assert (v = stored_cell (tmap !! key) (row_get r key)) as ->.
  { pose proof (check_cell_Normal _ _ _ Hcell) as Hacc.
    rewrite (check_cell_accepted _ _ Hacc) in Hcell.
    destruct (tmap !! key) as [[]|]; try done.
    by destruct (row_get r key) as [| |?|?|?|[?|]|?]; simplify_eq. }
  destruct (decide (k = key)) as [->|Hne].
  - destruct (IH (row_set r key (stored_cell (tmap !! key) (row_get r key))))
      as [-> | ->]; rewrite row_get_set_eq; [by right|].
    right. apply stored_cell_accepted_idemp.
  - destruct (IH (row_set r key (stored_cell (tmap !! key) (row_get r key))))
      as [-> | ->]; rewrite row_get_set_ne by done; auto.
Qed.

Lemma check_row_get columns r k :
  row_get (check_row columns r).2 k = row_get r k
  ∨ row_get (check_row columns r).2 k
    = stored_cell (column_type columns k) (row_get r k).
Proof.
  unfold check_row. destruct (bool_decide _); [|by left]. apply check_keys_get.
Qed.

Lemma check_rows_get columns batch h l k :
  row_get ((check_rows columns batch h).2 l) k = row_get (h l) k
  ∨ row_get ((check_rows columns batch h).2 l) k
    = stored_cell (column_type columns k) (row_get (h l) k).
Proof.
  revert h. induction batch as [|l0 batch IH]; intros h; simpl; [by left|].
  pose proof (check_row_get columns (h l0) k) as Hrow.
  destruct (check_row columns (h l0)) as [[[]|e] r]; simpl in *.
  - destruct (IH (<[l0:=r]> h)) as [-> | ->];
      (destruct (decide (l0 = l)) as [->|Hne];
       [rewrite fn_lookup_insert|rewrite fn_lookup_insert_ne by done; auto]).
    + done.
    + destruct Hrow as [-> | ->]; [by right|].
      right. apply stored_cell_accepted_idemp.
  - destruct (decide (l0 = l)) as [->|Hne];
      [by rewrite fn_lookup_insert|rewrite fn_lookup_insert_ne by done; auto].
Qed.

End validation.


(* ===================================================================== *)
(** ** Lemmas: the read path *)
(* ===================================================================== *)

Section normalization.
Context `{Implementation}.

(** The row [normalizeRows] builds from one row. *)
Definition normalized_row (columns : list DataStoreColumn) (r : Row) : Row :=
  (λ kv, (kv.1, normalizeCell (column_type columns kv.1) kv.2)) <$> r.

Lemma normalizeRow_prefix columns (r1 r2 : Row) :
  NoDup (r1 ++ r2).*1 →
  foldl (λ normalized '(key, value),
           row_set normalized key
             (normalizeCell (Map_new ((λ col, (name col, type col)) <$> columns)
                               !! key) value))
        (r1 ++ r2) r2
  = r1 ++ normalized_row columns r2.
Proof.
  revert r1. induction r2 as [|[k v] r2 IH]; intros r1 Hnd; simpl; [done|].
  assert (k ∉ r1.*1) as Hk.
  { rewrite fmap_app in Hnd. apply NoDup_app in Hnd as (_ & Hdisj & _).
    intros Hin. apply (Hdisj k Hin). simpl. left. }
  rewrite row_set_app_r by done. simpl. rewrite decide_True by done.
  specialize (IH (r1 ++ [(k, normalizeCell (column_type columns k) v)])).
  rewrite <- !app_assoc in IH. simpl in IH. apply IH.
  rewrite fmap_app in *. done.
Qed.

Lemma normalizeRow_wf columns (r : Row) :
  wf_row r →
  normalizeRow (Map_new ((λ col, (name col, type col)) <$> columns)) r
  = normalized_row columns r.
Proof. intros Hwf. apply (normalizeRow_prefix columns [] r Hwf). Qed.

Lemma normalizeRows_wf columns (rows : list Row) :
  Forall wf_row rows →
  normalizeRows rows columns = normalized_row columns <$> rows.
Proof.
  intros Hwf. unfold normalizeRows. apply list_fmap_ext.
  intros i r Hi. apply normalizeRow_wf.
  rewrite Forall_forall in Hwf. apply Hwf. by eapply list_elem_of_lookup_2.
Qed.

Lemma normalized_row_keys columns r : (normalized_row columns r).*1 = r.*1.
Proof. unfold normalized_row. rewrite <- list_fmap_compose. done. Qed.

Lemma normalized_row_wf columns r : wf_row r → wf_row (normalized_row columns r).
Proof. unfold wf_row. by rewrite normalized_row_keys. Qed.

Lemma normalized_row_get columns r k v :
  wf_row r → (k, v) ∈ r →
  row_get (normalized_row columns r) k = normalizeCell (column_type columns k) v.
Proof.
  intros Hwf Hin. apply row_get_elem_of; [by apply normalized_row_wf|].
  unfold normalized_row. apply list_elem_of_fmap. by exists (k, v).
Qed.

(** The number literals [1] and [0] of [normalizeBoolean]. *)
Lemma number_of_Z_1 : number_of_Z 1 = S754_finite false 4503599627370496 (-52).
Proof. vm_compute. reflexivity. Qed.

Lemma number_of_Z_0 : number_of_Z 0 = S754_zero false.
Proof. vm_compute. reflexivity. Qed.

Lemma number_equal_one x :
  number_equal x (number_of_Z 1) = true ↔ x = number_of_Z 1.
Proof.
  rewrite number_of_Z_1. split; [|intros ->; vm_compute; reflexivity].
  unfold number_equal, SFeqb, SFcompare.
  destruct x as [s|s| |s m e]; [by destruct s..|discriminate|].
  destruct s; [discriminate|].
  destruct (e ?= -52) eqn:He; [|discriminate..].
  apply Z.compare_eq in He as ->.
  destruct (Pos.compare_cont Eq m 4503599627370496) eqn:Hm; [|discriminate..].
  apply Pos.compare_eq in Hm as ->. reflexivity.
Qed.

Lemma number_equal_zero x :
  number_equal x (number_of_Z 0) = true ↔ ∃ s, x = S754_zero s.
Proof.
  rewrite number_of_Z_0. split; [|intros [s ->]; reflexivity].
  unfold number_equal, SFeqb, SFcompare.
  destruct x as [s|s| |s m e];
    [by exists s|destruct s; discriminate|discriminate|destruct s; discriminate].
Qed.

(** Every value [normalizeCell] returns for a column is in canonical form:
    null or of the declared type. *)
Definition canonical (ty : option ColumnType) (v : value) : Prop :=
  match ty with
  | Some ty => v = Null ∨ runtime_type_matches ty v = true
  | None => True
  end.

#[global] Instance canonical_dec ty v : Decision (canonical ty v).
Proof. destruct ty; simpl; apply _. Defined.

Lemma normalizeCell_canonical_id ty v :
  canonical ty v → normalizeCell ty v = v.
Proof.
  destruct ty as [[]|]; simpl; [| | | |done];
    (intros [->|Hv]; [done|]); by destruct v.
Qed.

Lemma normalizeCell_canonical ty v : canonical ty (normalizeCell ty v).
Proof.
  destruct ty as [[]|]; simpl; [| | | |done].
  - unfold normalizeBoolean. destruct v as [| |b|x|s|tv|o]; simpl; auto;
      repeat (match goal with |- context [if ?c then _ else _] => destruct c end);
      auto.
  - unfold normalizeDate. destruct v as [| |b|x|s|tv|o]; simpl; auto.
    + destruct (truncate x) as [t|]; simpl; [|by left].
      destruct (TimeClip t); auto.
    + destruct (DateParse s); auto.
  - destruct v; simpl; auto.
  - unfold normalizeNumber. destruct v as [| |b|x|s|tv|o]; simpl; auto;
      match goal with |- context [isNaN ?n] => destruct (isNaN n) end; auto.
Qed.

End normalization.

(* ===================================================================== *)
(** ** Running the service *)
(* ===================================================================== *)

(** A run time and collaborators to run the service on concrete inputs.
    The choices are arbitrary: the general statements below hold for every
    [Implementation] and every [Collaborators]. *)
Definition sample_implementation : Implementation :=
  {| NumberToString_other := λ _, "";
     StringToNumber := λ _, NaN;
     DateParse_other := λ _, None;
     DateToString := iso_string |}.

Definition sample_collaborators : Collaborators :=
  {| toTableName := λ dataStoreId, "data_store_user_" +:+ dataStoreId;
     rowsRepository_answer := λ _, inr (Boolean true);
     dataStoreRepository_createDataStore := λ projectId name columns stores,
       let ds := {| ds_name := name; ds_projectId := projectId;
                    ds_columns := columns |} in
       (inr ds, stores ++ [ds]) |}.

(** A world with one data store schema and the given row objects. *)
Definition world (columns : list DataStoreColumn) (h : loc → Row) : World :=
  {| heap := h; columnRepository := λ _, columns;
     dataStoreRepository := []; rowsRepository := [] |}.

(** Row objects given by position: reference [i] is the [i]-th row, any
    other reference an empty object. *)
Definition objects (rs : list Row) : loc → Row := λ l, default [] (rs !! l).

Definition orders : list DataStoreColumn :=
  [ {| name := "paid"; type := boolean |}; {| name := "total"; type := number_ |} ].

Example insert_orders_ok :
  (@insertRows sample_implementation sample_collaborators "orders" [0%nat]
     (world orders (objects [[("paid", Boolean true);
                              ("total", Number (number_of_Z 10))]]))).1
  = Normal (Boolean true).
Proof. vm_compute. reflexivity. Qed.

Example insert_orders_yes :
  (@insertRows sample_implementation sample_collaborators "orders" [0%nat]
     (world orders (objects [[("paid", String_ "yes");
                              ("total", Number (number_of_Z 10))]]))).1
  = Throw (UserError "value 'yes' does not match column type 'boolean'").
Proof. vm_compute. reflexivity. Qed.

Example toISOString_epoch : toISOString (Some 0) = Normal "1970-01-01T00:00:00.000Z".
Proof. vm_compute. reflexivity. Qed.

Example toISOString_invalid : toISOString None = Throw RangeError.
Proof. reflexivity. Qed.

Example toISOString_last_instant :
  toISOString (Some maxTime) = Normal "+275760-09-13T00:00:00.000Z".
Proof. vm_compute. reflexivity. Qed.

Example toISOString_before_year_zero :
  toISOString (Some (-62167219200001)) = Normal "-000001-12-31T23:59:59.999Z".
Proof. vm_compute. reflexivity. Qed.

Example parse_leap_day :
  parse_iso_utc "2020-02-29T01:02:03.004Z" = Some 1582938123004.
Proof. vm_compute. reflexivity. Qed.

Example parse_no_such_day : parse_iso_utc "2021-02-29T00:00:00.000Z" = None.
Proof. vm_compute. reflexivity. Qed.

(* ===================================================================== *)
(** ** Properties: the read path *)
(* ===================================================================== *)

(** C4. The read-path boolean coercion [normalizeBoolean] maps a native
    boolean to itself, the literals 1 and '1' to true, the literals 0 and
    '0' to false, and every other raw value, null included, to null; and
    [normalizeRows] applies it to every cell of a boolean column.  The
    number literal 0 is strictly equal to both zeros of the Number type:
    +0 and -0 both give false, and "another value" excludes both. *)
Theorem normalizeBoolean_coercion `{Implementation} :
  (∀ b, normalizeBoolean (Boolean b) = Boolean b)
  ∧ normalizeBoolean (Number (number_of_Z 1)) = Boolean true
  ∧ normalizeBoolean (String_ "1") = Boolean true
  ∧ normalizeBoolean (Number (number_of_Z 0)) = Boolean false
  ∧ (∀ s, normalizeBoolean (Number (S754_zero s)) = Boolean false)
  ∧ normalizeBoolean (String_ "0") = Boolean false
  ∧ normalizeBoolean Null = Null
  ∧ (∀ v, (∀ b, v ≠ Boolean b) →
          v ≠ Number (number_of_Z 1) → v ≠ String_ "1" →
          (∀ s, v ≠ Number (S754_zero s)) → v ≠ String_ "0" →
          normalizeBoolean v = Null)
  ∧ (∀ columns (rows : list Row) i (r : Row),
       Forall wf_row rows → rows !! i = Some r →
       ∃ r', normalizeRows rows columns !! i = Some r'
             ∧ r'.*1 = r.*1
             ∧ ∀ k v, (k, v) ∈ r → column_type columns k = Some boolean →
                      row_get r' k = normalizeBoolean v).
Proof.
  split; [by intros []|]. do 3 (split; [vm_compute; reflexivity|]).
  split; [intros []; vm_compute; reflexivity|].
  do 2 (split; [vm_compute; reflexivity|]). split.
  - intros v Hb H1 Hs1 H0 Hs0. unfold normalizeBoolean.
    destruct v as [| |b|x|s|tv|o]; cbn -[number_of_Z number_equal];
      try reflexivity.
    + by destruct (Hb b).
    + destruct (number_equal x (number_of_Z 1)) eqn:E1.
      { apply number_equal_one in E1. congruence. }
      destruct (number_equal x (number_of_Z 0)) eqn:E0; [|reflexivity].
      apply number_equal_zero in E0 as [s ->]. by destruct (H0 s).
    + destruct (String.eqb s "1") eqn:E1.
      { apply String.eqb_eq in E1. congruence. }
      destruct (String.eqb s "0") eqn:E0; [|reflexivity].
      apply String.eqb_eq in E0. congruence.
  - intros columns rows i r Hwf Hi. rewrite normalizeRows_wf by done.
    exists (normalized_row columns r).
    split; [by rewrite list_lookup_fmap, Hi|]. split; [apply normalized_row_keys|].
    intros k v Hin Hty. rewrite (normalized_row_get columns r k v); [|..|done].
    + by rewrite Hty.
    + rewrite Forall_forall in Hwf. apply Hwf. by eapply list_elem_of_lookup_2.
Qed.

Lemma normalizeBoolean_coercion_witness :
  normalizeBoolean (String_ "yes") = Null
  ∧ normalizeBoolean (Number (S754_zero true)) = Boolean false
  ∧ ∃ r', @normalizeRows sample_implementation
            [[("paid", Number (number_of_Z 1)); ("total", String_ "1")]] orders
            !! 0%nat = Some r'
          ∧ row_get r' "paid" = Boolean true.
Proof.
  pose proof (@normalizeBoolean_coercion sample_implementation)
    as (_ & _ & _ & _ & Hzero & _ & _ & Hother & Hrows).
  split; [|split].
  - apply Hother; intros; discriminate.
  - apply Hzero.
  - destruct (Hrows orders [[("paid", Number (number_of_Z 1)); ("total", String_ "1")]]
                0%nat [("paid", Number (number_of_Z 1)); ("total", String_ "1")])
      as (r' & Hr' & _ & Hcell).
    + compute_done.
    + reflexivity.
    + exists r'. split; [done|].
      rewrite (Hcell "paid" (Number (number_of_Z 1))); [vm_compute; reflexivity|left|].
      vm_compute. reflexivity.
Defined.

(** A row whose cells are in canonical form for their columns. *)
Definition canonical_row (columns : list DataStoreColumn) (r : Row) : Prop :=
  Forall (λ kv, canonical (column_type columns kv.1) kv.2) r.

#[global] Instance canonical_row_dec columns r : Decision (canonical_row columns r).
Proof. unfold canonical_row. apply _. Defined.

Lemma normalizeRows_canonical_id `{Implementation} columns (rows : list Row) :
  Forall wf_row rows → Forall (canonical_row columns) rows →
  normalizeRows rows columns = rows.
Proof.
  intros Hwf Hcan. rewrite normalizeRows_wf by done.
  rewrite <- (list_fmap_id rows) at 2. apply list_fmap_ext.
  intros i r Hi. apply list_elem_of_lookup_2 in Hi.
  rewrite Forall_forall in Hcan. specialize (Hcan r Hi).
  unfold canonical_row in Hcan. rewrite Forall_forall in Hcan.
  unfold normalized_row. rewrite <- (list_fmap_id r) at 2.
  apply list_fmap_ext. intros j [k v] Hj. simpl. f_equal.
  apply normalizeCell_canonical_id, (Hcan (k, v)).
  by eapply list_elem_of_lookup_2.
Qed.

(** What [normalizeRows] returns is canonical, so normalizing twice is
    normalizing once for every row, canonical or not. *)
Lemma normalizeRows_idempotent `{Implementation} columns (rows : list Row) :
  Forall wf_row rows →
  normalizeRows (normalizeRows rows columns) columns = normalizeRows rows columns.
Proof.
  intros Hwf. apply normalizeRows_canonical_id.
  - rewrite normalizeRows_wf by done. rewrite Forall_fmap.
    eapply Forall_impl; [exact Hwf|]. intros r. apply normalized_row_wf.
  - rewrite normalizeRows_wf by done. rewrite Forall_fmap.
    apply Forall_forall. intros r _.
    unfold compose, canonical_row, normalized_row.
    rewrite Forall_fmap. apply Forall_forall. intros [k v] _. simpl.
    apply normalizeCell_canonical.
Qed.

(** C7. Idempotence of normalization: for every schema and every row whose
    cells are in canonical form for the declared types of their columns
    (native boolean, date, string or number, or null), [normalizeRows]
    returns the row with every cell unchanged, so that applying it twice is
    applying it once. *)
Theorem normalizeRows_canonical `{Implementation} columns (rows : list Row) :
  Forall wf_row rows → Forall (canonical_row columns) rows →
  normalizeRows rows columns = rows
  ∧ normalizeRows (normalizeRows rows columns) columns = normalizeRows rows columns.
Proof.
  intros Hwf Hcan. split; [by apply normalizeRows_canonical_id|].
  by apply normalizeRows_idempotent.
Qed.

Lemma normalizeRows_canonical_witness :
  let rows := [[("paid", Boolean false); ("total", Null); ("note", Undefined)];
               [("paid", Null); ("total", Number NaN); ("note", Date None)]] in
  @normalizeRows sample_implementation rows orders = rows
  ∧ @normalizeRows sample_implementation
      (@normalizeRows sample_implementation rows orders) orders
    = @normalizeRows sample_implementation rows orders.
Proof.
  intros rows.
  apply (@normalizeRows_canonical sample_implementation orders rows);
    compute_done.
Defined.

(* ===================================================================== *)
(** ** Properties: the write path *)
(* ===================================================================== *)

(** The rows of the specification: the keys of the row are exactly the
    column names, and every non-null cell has the runtime type its column
    declares. *)
Definition row_conforms (columns : list DataStoreColumn) (r : Row) : Prop :=
  wf_row r
  ∧ r.*1 ≡ₚ name <$> columns
  ∧ Forall (λ kv, Forall (λ c, name c = kv.1 → kv.2 ≠ Null →
                               runtime_type_matches (type c) kv.2 = true)
                         columns) r.

#[global] Instance row_conforms_dec columns r : Decision (row_conforms columns r).
Proof. unfold row_conforms. apply _. Defined.

(** No cell is the invalid date. *)
Definition valid_dates (r : Row) : Prop := Forall (λ kv, kv.2 ≠ Date None) r.

#[global] Instance valid_dates_dec r : Decision (valid_dates r).
Proof. unfold valid_dates. apply _. Defined.

Lemma row_conforms_accepted columns r :
  row_conforms columns r → valid_dates r → row_accepted columns r.
Proof.
  intros (Hwf & Hperm & Hty) Hvalid. split.
  { apply Permutation_length in Hperm. by rewrite !length_fmap in Hperm. }
  assert (NoDup (name <$> columns)) as Hnd by (by rewrite <- Hperm).
  apply entries_accepted_elem_of. intros k v Hin.
  assert (k ∈ name <$> columns) as Hk.
  { rewrite <- Hperm. apply list_elem_of_fmap. by exists (k, v). }
  split; [done|].
  apply list_elem_of_fmap in Hk as (c & -> & Hc).
  rewrite (column_type_elem_of columns c Hnd Hc).
  destruct (decide (v = Null)) as [->|Hnull]; [done|].
  rewrite Forall_forall in Hty. specialize (Hty _ Hin).
  rewrite Forall_forall in Hty. specialize (Hty c Hc eq_refl Hnull).
  unfold valid_dates in Hvalid. rewrite Forall_forall in Hvalid.
  specialize (Hvalid _ Hin). simpl in *.
  by destruct (type c), v as [| |b|x|s|[t|]|o].
Qed.

(** C1, as amended.  For every non-empty schema and every batch of rows in
    which each row has exactly the column names as keys, every non-null
    cell has the runtime type its column declares, every date is a valid
    date, and no row object holding a date occurs twice in the batch,
    [validateRows] succeeds and leaves every cell unchanged except that
    each date of a date column is rewritten to its ISO-8601 string. *)
Theorem validateRows_conforming `{Implementation} dataStoreId batch w :
  let columns := columnRepository w dataStoreId in
  columns ≠ [] →
  Forall (λ l, row_conforms columns (heap w l) ∧ valid_dates (heap w l)) batch →
  no_shared_dates columns (heap w) batch →
  ∃ w', validateRows dataStoreId batch w = (Normal tt, w')
        ∧ same_services w w'
        ∧ (∀ l, l ∉ batch → heap w' l = heap w l)
        ∧ ∀ l, l ∈ batch →
            (heap w' l).*1 = (heap w l).*1
            ∧ ∀ k, row_get (heap w' l) k =
                     match column_type columns k, row_get (heap w l) k with
                     | Some date, Date (Some t) => String_ (iso_string t)
                     | _, cell => cell
                     end.
Proof.
  intros columns Hne Hrows Hshared. rewrite Forall_forall in Hrows.
  destruct (validateRows_nonempty dataStoreId batch w Hne)
    as (w' & Hrun & Hs & Hheap).
  fold columns in Hrun, Hheap.
  assert (∀ l, l ∈ batch → wf_row (heap w l) ∧ row_accepted columns (heap w l))
    as Hacc.
  { intros l Hl. destruct (Hrows l Hl) as [Hconf Hvalid].
    split; [apply Hconf|by apply row_conforms_accepted]. }
  pose proof (check_rows_accepted columns batch (heap w) Hacc Hshared) as Hok.
  destruct (check_rows_Normal columns batch (heap w)) as [_ Hfinal]; [|done|].
  { intros l Hl. by apply Hacc. }
  exists w'. rewrite Hok in Hrun. split; [done|]. split; [done|]. split.
  - intros l Hl. by rewrite Hheap, Hfinal, bool_decide_eq_false_2.
  - intros l Hl. rewrite Hheap, Hfinal, bool_decide_eq_true_2 by done.
    split; [apply stored_row_keys|]. intros k. rewrite stored_row_get.
    unfold stored_cell.
    by destruct (column_type columns k) as [[]|],
         (row_get (heap w l) k) as [| |?|?|?|[?|]|?].
Qed.

Definition appointments : list DataStoreColumn := [ {| name := "at"; type := date |} ].

Lemma validateRows_conforming_witness :
  ∃ w', @validateRows sample_implementation "appointments" [0%nat; 1%nat]
          (world appointments (objects [[("at", Date (Some 0))]; [("at", Null)]]))
        = (Normal tt, w')
        ∧ heap w' 0%nat = [("at", String_ "1970-01-01T00:00:00.000Z")]
        ∧ heap w' 1%nat = [("at", Null)].
Proof.
  destruct (@validateRows_conforming sample_implementation "appointments"
              [0%nat; 1%nat]
              (world appointments (objects [[("at", Date (Some 0))]; [("at", Null)]])))
    as (w' & Hrun & _ & _ & _); [compute_done..|].
  exists w'. split; [exact Hrun|].
  assert (Hw' := f_equal snd Hrun). simpl in Hw'. subst w'.
  split; vm_compute; reflexivity.
Defined.

(** Three ways for a batch of conforming rows to fail, whatever the
    implementation of the run time. *)
Lemma validateRows_empty_schema `{Implementation} dataStoreId batch w :
  columnRepository w dataStoreId = [] →
  validateRows dataStoreId batch w
  = (Throw (UserError
              "No columns found for this data store or data store not found"), w).
Proof.
  intros Hnil. unfold validateRows, mbind, M_bind, getColumns. simpl.
  by rewrite Hnil.
Qed.

Lemma validateRows_invalid_date `{Implementation} :
  (validateRows "appointments" [0%nat]
     (world appointments (objects [[("at", Date None)]]))).1
  = Throw RangeError.
Proof. vm_compute. reflexivity. Qed.

Lemma validateRows_same_row_twice `{Implementation} :
  (validateRows "appointments" [0%nat; 0%nat]
     (world appointments (objects [[("at", Date (Some 0))]]))).1
  = Throw (UserError
             "value '1970-01-01T00:00:00.000Z' does not match column type 'date'").
Proof. vm_compute. reflexivity. Qed.

(** C1, as stated, fails in three ways: on an empty schema; on a date cell
    holding the invalid date, for which [toISOString] raises a RangeError;
    and on a batch that holds the same row object twice, whose date is a
    string when the row is met again. *)
Lemma validateRows_conforming_counterexample :
  (let w := world [] (objects []) in
   Forall (λ l, row_conforms [] (heap w l)) []
   ∧ (@validateRows sample_implementation "none" [] w).1
     = Throw (UserError
                "No columns found for this data store or data store not found"))
  ∧ (let w := world appointments (objects [[("at", Date None)]]) in
     Forall (λ l, row_conforms appointments (heap w l)) [0%nat]
     ∧ (@validateRows sample_implementation "appointments" [0%nat] w).1
       = Throw RangeError)
  ∧ (let w := world appointments (objects [[("at", Date (Some 0))]]) in
     Forall (λ l, row_conforms appointments (heap w l)) [0%nat; 0%nat]
     ∧ (@validateRows sample_implementation "appointments" [0%nat; 0%nat] w).1
       = Throw (UserError
                  "value '1970-01-01T00:00:00.000Z' does not match column type 'date'")).
Proof.
  repeat split; try compute_done; vm_compute; reflexivity.
Qed.

Definition notes : list DataStoreColumn := [ {| name := "text"; type := string_ |} ].

(** C2, as amended.  For every non-empty schema and every batch containing
    a row whose number of keys differs from the number of columns,
    [validateRows] fails; the error is the mismatched-key-count error,
    whichever keys differ, when the rows before that row pass. *)
Theorem validateRows_key_count `{Implementation} dataStoreId pre l post w :
  let columns := columnRepository w dataStoreId in
  columns ≠ [] →
  length (heap w l).*1 ≠ length columns →
  (∃ e w', validateRows dataStoreId (pre ++ l :: post) w = (Throw e, w'))
  ∧ ∀ w1, validateRows dataStoreId pre w = (Normal tt, w1) →
          ∃ w', validateRows dataStoreId (pre ++ l :: post) w
                = (Throw (UserError "mismatched key count"), w').
Proof.
  intros columns Hne Hlen. split.
  - apply (validateRows_Throw dataStoreId _ w l).
    + apply elem_of_app. right. left.
    + intros r Hr. rewrite check_row_key_count; [eauto|]. by rewrite Hr.
  - intros w1 Hpre.
    destruct (validateRows_app dataStoreId pre (l :: post) w w1 Hne Hpre)
      as (w' & Hrun & _).
    destruct (validateRows_nonempty dataStoreId pre w Hne) as (w1' & Hrun1 & _ & Hh1).
    rewrite Hpre in Hrun1. injection Hrun1 as _ <-.
    exists w'. rewrite Hrun. f_equal. simpl.
    rewrite check_row_key_count; [done|].
    by rewrite Hh1, check_rows_keys.
Qed.

Lemma validateRows_key_count_witness :
  ∃ w', @validateRows sample_implementation "notes" [0%nat; 1%nat; 2%nat]
          (world notes (objects [[("text", String_ "a")];
                                 [("text", String_ "b"); ("extra", Null)];
                                 []]))
        = (Throw (UserError "mismatched key count"), w').
Proof.
  eapply (proj2 (@validateRows_key_count sample_implementation "notes"
                   [0%nat] 1%nat [2%nat]
                   (world notes (objects [[("text", String_ "a")];
                                          [("text", String_ "b"); ("extra", Null)];
                                          []]))
                   ltac:(discriminate) ltac:(vm_compute; lia))).
  vm_compute. reflexivity.
Defined.

(** C2, as stated, fails: validation stops at the first violation, so a row
    with a wrong number of keys that comes after a row with an ill-typed
    cell is never reached, and the error is the type mismatch. *)
Lemma validateRows_key_count_counterexample :
  let w := world notes (objects [[("text", Number (number_of_Z 1))]; []]) in
  notes ≠ []
  ∧ length (heap w 1%nat).*1 ≠ length notes
  ∧ (@validateRows sample_implementation "notes" [0%nat; 1%nat] w).1
    = Throw (UserError "value '1' does not match column type 'string'").
Proof.
  cbv zeta. split; [done|]. split; [vm_compute; lia|]. vm_compute. reflexivity.
Qed.

(** C3, as amended.  For every non-empty schema and every batch containing
    a row that has a key absent from the column names, [validateRows]
    fails; the error is the unknown-column error when the rows before that
    row pass, the row has as many keys as there are columns, and the cells
    of the keys before the absent key pass. *)
Theorem validateRows_unknown_column `{Implementation} dataStoreId pre l post w key :
  let columns := columnRepository w dataStoreId in
  columns ≠ [] →
  key ∈ (heap w l).*1 →
  key ∉ name <$> columns →
  (∃ e w', validateRows dataStoreId (pre ++ l :: post) w = (Throw e, w'))
  ∧ ∀ w1 r1 v r2,
      validateRows dataStoreId pre w = (Normal tt, w1) →
      wf_row (heap w l) →
      length (heap w l) = length columns →
      heap w l = r1 ++ (key, v) :: r2 →
      entries_accepted columns r1 →
      ∃ w', validateRows dataStoreId (pre ++ l :: post) w
            = (Throw (UserError "unknown column name"), w').
Proof.
  intros columns Hne Hkey Hnin. split.
  - apply (validateRows_Throw dataStoreId _ w l).
    + apply elem_of_app. right. left.
    + intros r Hr. apply (check_row_unknown _ _ key); [by rewrite Hr|done].
  - intros w1 r1 v r2 Hpre Hwf Hlen Hrow Hacc.
    assert (l ∉ pre) as Hl.
    { intros Hl. apply Hnin.
      by apply (validateRows_Normal_known dataStoreId pre w w1 l key). }
    destruct (validateRows_app dataStoreId pre (l :: post) w w1 Hne Hpre)
      as (w' & Hrun & _).
    destruct (validateRows_nonempty dataStoreId pre w Hne) as (w1' & Hrun1 & _ & Hh1).
    rewrite Hpre in Hrun1. injection Hrun1 as _ <-.
    exists w'. rewrite Hrun. f_equal. simpl.
    rewrite Hh1, check_rows_frame by done. fold columns.
    rewrite check_row_entries by done.
    rewrite bool_decide_eq_true_2 by done.
    rewrite Hrow, check_entries_app by done.
    cbn [check_entries]. by rewrite bool_decide_eq_false_2.
Qed.

Lemma validateRows_unknown_column_witness :
  ∃ w', @validateRows sample_implementation "orders" [0%nat; 1%nat]
          (world orders (objects [[("paid", Null); ("total", Null)];
                                  [("paid", Boolean true); ("price", Null)]]))
        = (Throw (UserError "unknown column name"), w').
Proof.
  eapply (proj2 (@validateRows_unknown_column sample_implementation "orders"
                   [0%nat] 1%nat []
                   (world orders (objects [[("paid", Null); ("total", Null)];
                                           [("paid", Boolean true); ("price", Null)]]))
                   "price" ltac:(discriminate) ltac:(compute_done)
                   ltac:(compute_done))
            _ [("paid", Boolean true)] Null []).
  - vm_compute. reflexivity.
  - compute_done.
  - reflexivity.
  - reflexivity.
  - compute_done.
Defined.

(** C3, as stated, fails: the number of keys is compared first, so a row
    with an extra key gets the mismatched-key-count error; and the keys are
    gone through in order, so an ill-typed cell before the unknown key gets
    the type-mismatch error. *)
Lemma validateRows_unknown_column_counterexample :
  (let w := world notes (objects [[("text", String_ "a"); ("extra", Null)]]) in
   "extra" ∈ (heap w 0%nat).*1 ∧ ("extra" ∉ name <$> notes)
   ∧ (@validateRows sample_implementation "notes" [0%nat] w).1
     = Throw (UserError "mismatched key count"))
  ∧ (let w := world orders (objects [[("paid", String_ "yes"); ("price", Null)]]) in
     "price" ∈ (heap w 0%nat).*1 ∧ ("price" ∉ name <$> orders)
     ∧ (@validateRows sample_implementation "orders" [0%nat] w).1
       = Throw (UserError "value 'yes' does not match column type 'boolean'")).
Proof. repeat split; try compute_done; vm_compute; reflexivity. Qed.

(** One row of a batch of one, with the cell under test between cells that
    pass. *)
Lemma validateRows_one `{Implementation} dataStoreId (l : loc) w :
  let columns := columnRepository w dataStoreId in
  columns ≠ [] → wf_row (heap w l) → length columns = length (heap w l) →
  ∃ w', validateRows dataStoreId [l] w = ((check_entries columns (heap w l)).1, w')
        ∧ heap w' l = (check_entries columns (heap w l)).2
        ∧ ∀ l', l' ≠ l → heap w' l' = heap w l'.
Proof.
  intros columns Hne Hwf Hlen.
  destruct (validateRows_nonempty dataStoreId [l] w Hne) as (w' & Hrun & _ & Hh).
  fold columns in Hrun, Hh. simpl in Hrun, Hh.
  rewrite check_row_entries in Hrun, Hh by done.
  rewrite bool_decide_eq_true_2 in Hrun, Hh by done.
  exists w'. destruct (check_entries columns (heap w l)) as [[[]|e] r]; simpl in *.
  - split; [done|]. split; [by rewrite Hh, fn_lookup_insert|].
    intros l' Hne'. by rewrite Hh, fn_lookup_insert_ne.
  - split; [done|]. split; [by rewrite Hh, fn_lookup_insert|].
    intros l' Hne'. by rewrite Hh, fn_lookup_insert_ne.
Qed.

Lemma mismatch_boolean_1 `{Implementation} v :
  v = Number (number_of_Z 1) ∨ v = String_ "1" →
  check_cell (Some boolean) v
  = Throw (UserError "value '1' does not match column type 'boolean'").
Proof. intros [-> | ->]; vm_compute; reflexivity. Qed.

Lemma mismatch_boolean_0 `{Implementation} v :
  v = Number (number_of_Z 0) ∨ v = String_ "0" →
  check_cell (Some boolean) v
  = Throw (UserError "value '0' does not match column type 'boolean'").
Proof. intros [-> | ->]; vm_compute; reflexivity. Qed.

(** C5.  On the write path, for every non-empty schema and every row whose
    keys match the schema: a null cell is accepted by [validateRows] for
    every column type, and a non-null cell of a boolean column is accepted
    if and only if it is a native boolean; in particular 1, '1', 0 and '0'
    are rejected with a type-mismatch error, without the coercion of the
    read path.  The cell under test stands between cells that pass (null
    cells, for instance). *)
Theorem validateRows_null_and_boolean `{Implementation} dataStoreId (l : loc) w :
  let columns := columnRepository w dataStoreId in
  columns ≠ [] →
  wf_row (heap w l) →
  (heap w l).*1 ≡ₚ name <$> columns →
  (Forall (λ kv, kv.2 = Null) (heap w l) →
   ∃ w', validateRows dataStoreId [l] w = (Normal tt, w')
         ∧ ∀ l', heap w' l' = heap w l')
  ∧ ∀ r1 key v r2,
      heap w l = r1 ++ (key, v) :: r2 →
      entries_accepted columns r1 → entries_accepted columns r2 →
      (v = Null → ∃ w', validateRows dataStoreId [l] w = (Normal tt, w'))
      ∧ (column_type columns key = Some boolean → v ≠ Null →
         ((∃ w', validateRows dataStoreId [l] w = (Normal tt, w'))
          ↔ ∃ b, v = Boolean b)
         ∧ (v = Number (number_of_Z 1) ∨ v = String_ "1" →
            ∃ w', validateRows dataStoreId [l] w
                  = (Throw (UserError
                              "value '1' does not match column type 'boolean'"), w'))
         ∧ (v = Number (number_of_Z 0) ∨ v = String_ "0" →
            ∃ w', validateRows dataStoreId [l] w
                  = (Throw (UserError
                              "value '0' does not match column type 'boolean'"), w'))).
Proof.
  intros columns Hne Hwf Hperm.
  assert (length columns = length (heap w l)) as Hlen.
  { apply Permutation_length in Hperm. by rewrite !length_fmap in Hperm. }
  destruct (validateRows_one dataStoreId l w Hne Hwf Hlen)
    as (w' & Hrun & Hl & Hothers).
  fold columns in Hrun, Hl.
  assert (∀ k, k ∈ (heap w l).*1 → k ∈ name <$> columns) as Hnames.
  { intros k Hk. by rewrite <- Hperm. }
  split.
  - intros Hnull.
    assert (entries_accepted columns (heap w l)) as Hacc.
    { apply entries_accepted_elem_of. intros k v Hin.
      rewrite Forall_forall in Hnull. specialize (Hnull _ Hin). simpl in Hnull.
      subst v. split; [|done]. apply Hnames, list_elem_of_fmap. by exists (k, Null). }
    rewrite (check_entries_accepted _ _ Hacc) in Hrun, Hl. simpl in Hrun, Hl.
    exists w'. split; [done|]. intros l'.
    destruct (decide (l' = l)) as [->|Hne']; [|by apply Hothers].
    rewrite Hl. unfold stored_row. rewrite <- (list_fmap_id (heap w l)) at 2.
    apply list_fmap_ext. intros i [k v] Hi. simpl.
    rewrite Forall_forall in Hnull.
    specialize (Hnull _ (list_elem_of_lookup_2 _ _ _ Hi)). simpl in Hnull. subst v.
    by destruct (column_type columns k) as [[]|].
  - intros r1 key v r2 Hrow Hacc1 Hacc2.
    assert (key ∈ name <$> columns) as Hkey.
    { apply Hnames. rewrite Hrow, fmap_app. apply elem_of_app. right. left. }
    rewrite Hrow, check_entries_app in Hrun by done.
    cbn [check_entries] in Hrun. rewrite bool_decide_eq_true_2 in Hrun by done.
    rewrite (check_entries_accepted _ _ Hacc2) in Hrun.
    split.
    { intros ->. simpl in Hrun. eauto. }
    intros Hty Hv. rewrite Hty in Hrun. split; [|split].
    + split.
      * intros [w2 Hok]. rewrite Hok in Hrun. injection Hrun as Hc _.
        destruct v as [| |b|x|s|[t|]|o]; simpl in Hc; try done.
        all: try (by eexists).
        all: by destruct (NumberToString x).
      * intros [b ->]. simpl in Hrun. eauto.
    + intros Hone. pose proof (mismatch_boolean_1 v Hone) as Hcell.
      destruct (cell_accepted (Some boolean) v) eqn:Hacc.
      { rewrite (check_cell_accepted _ _ Hacc) in Hcell. done. }
      rewrite Hcell in Hrun. simpl in Hrun. eauto.
    + intros Hzero. pose proof (mismatch_boolean_0 v Hzero) as Hcell.
      destruct (cell_accepted (Some boolean) v) eqn:Hacc.
      { rewrite (check_cell_accepted _ _ Hacc) in Hcell. done. }
      rewrite Hcell in Hrun. simpl in Hrun. eauto.
Qed.

Lemma validateRows_null_and_boolean_witness :
  ∃ w', @validateRows sample_implementation "orders" [0%nat]
          (world orders (objects [[("total", Null); ("paid", String_ "1")]]))
        = (Throw (UserError "value '1' does not match column type 'boolean'"), w').
Proof.
  destruct (@validateRows_null_and_boolean sample_implementation "orders" 0%nat
              (world orders (objects [[("total", Null); ("paid", String_ "1")]])))
    as [_ Hcell]; [compute_done..|].
  destruct (Hcell [("total", Null)] "paid" (String_ "1") [])
    as [_ Hbool]; [reflexivity|compute_done..|].
  destruct Hbool as (_ & Hone & _); [reflexivity|discriminate|].
  apply Hone. by right.
Defined.

(* ===================================================================== *)
(** ** Properties: the orchestration *)
(* ===================================================================== *)

(** C8.  Batch atomicity of writes: if any row of the batch fails
    validation, [insertRows] and [upsertRows] throw before the row-storage
    collaborator is called, so that it receives no row of the batch; the
    call is made, once and with the whole batch, only if the entire batch
    passes validation. *)
Theorem write_after_validation `{Implementation} `{Collaborators}
    dataStoreId batch dto w :
  (match validateRows dataStoreId batch w with
   | (Throw e, w1) => insertRows dataStoreId batch w = (Throw e, w1)
   | (Normal _, w1) =>
       ∃ answer w',
         insertRows dataStoreId batch w = (answer, w')
         ∧ heap w' = heap w1
         ∧ rowsRepository w' =
             rowsRepository w
             ++ [InsertRowsCall (toTableName dataStoreId) (heap w1 <$> batch)
                   (columnRepository w dataStoreId)]
   end)
  ∧ (match validateRows dataStoreId (rows dto) w with
     | (Throw e, w1) => upsertRows dataStoreId dto w = (Throw e, w1)
     | (Normal _, w1) =>
         ∃ answer w',
           upsertRows dataStoreId dto w = (answer, w')
           ∧ heap w' = heap w1
           ∧ rowsRepository w' =
               rowsRepository w
               ++ [UpsertRowsCall (toTableName dataStoreId) (heap w1 <$> rows dto)
                     (matchFields dto) (columnRepository w dataStoreId)]
     end)
  ∧ ∀ rows e w1, validateRows dataStoreId rows w = (Throw e, w1) →
                 rowsRepository w1 = rowsRepository w.
Proof.
  assert (∀ rows c w1, validateRows dataStoreId rows w = (c, w1) →
                       same_services w w1) as Hsame.
  { intros rows c w1 Hrun.
    destruct (validateRows_spec dataStoreId rows w) as (w' & Hrun' & Hs & _).
    rewrite Hrun in Hrun'. by injection Hrun' as _ <-. }
  split; [|split].
  - unfold insertRows, mbind, M_bind.
    destruct (validateRows dataStoreId batch w) as [[[]|e] w1] eqn:Hrun; [|done].
    destruct (Hsame _ _ _ Hrun) as (Hc & _ & Hr).
    unfold getColumns, rowsRepository_call. simpl. rewrite Hc, Hr. eauto.
  - unfold upsertRows, mbind, M_bind.
    destruct (validateRows dataStoreId (rows dto) w) as [[[]|e] w1] eqn:Hrun; [|done].
    destruct (Hsame _ _ _ Hrun) as (Hc & _ & Hr).
    unfold getColumns, rowsRepository_call. simpl. rewrite Hc, Hr. eauto.
  - intros rows e w1 Hrun. apply (Hsame _ _ _ Hrun).
Qed.

(** C9.  [createDataStore] fails with the duplicate-name error if and only
    if a data store of that name exists in that project: a data store of
    the same name in another project does not make it fail; when it fails,
    creation is not delegated and the repository is left as it is, and
    otherwise the outcome is that of the repository's [createDataStore]. *)
Theorem createDataStore_duplicate_name `{Collaborators} projectId dto w :
  let duplicate :=
    UserError ("Data store with name '" +:+ dto_name dto
                 +:+ "' already exists in this project") in
  let taken :=
    Exists (λ ds, ds_name ds = dto_name dto ∧ ds_projectId ds = projectId)
           (dataStoreRepository w) in
  ((createDataStore projectId dto w).1 = Throw duplicate ↔ taken)
  ∧ (taken → createDataStore projectId dto w = (Throw duplicate, w))
  ∧ (¬ taken →
     createDataStore projectId dto w
     = repository_createDataStore projectId (dto_name dto) (dto_columns dto) w).
Proof.
  intros duplicate taken.
  unfold createDataStore, mbind, M_bind, findOneBy. simpl.
  destruct (List.find _ (dataStoreRepository w)) as [ds|] eqn:Hfind.
  - assert taken as Htaken.
    { apply List.find_some in Hfind as [Hin [Hn Hp]%andb_prop].
      apply bool_decide_eq_true_1 in Hn, Hp.
      apply Exists_exists. exists ds. split; [|done]. by apply list_elem_of_In. }
    split; [|split]; done.
  - assert (¬ taken) as Hfree.
    { intros (ds & Hin & Hn & Hp)%Exists_exists.
      apply list_elem_of_In in Hin.
      pose proof (List.find_none _ _ Hfind ds Hin) as Hnone. simpl in Hnone.
      by rewrite !bool_decide_eq_true_2 in Hnone. }
    split; [|split]; [|done..].
    split; [|done]. unfold repository_createDataStore.
    destruct (dataStoreRepository_createDataStore _ _ _ _) as [[reason|ds] stores];
      discriminate.
Qed.

Lemma createDataStore_duplicate_name_witness :
  let w := {| heap := objects []; columnRepository := λ _, [];
              dataStoreRepository :=
                [ {| ds_name := "orders"; ds_projectId := "P1";
                     ds_columns := orders |} ];
              rowsRepository := [] |} in
  let dto := {| dto_name := "orders"; dto_columns := orders |} in
  @createDataStore sample_collaborators "P1" dto w
  = (Throw (UserError "Data store with name 'orders' already exists in this project"), w)
  ∧ (@createDataStore sample_collaborators "P2" dto w).1
    = Normal {| ds_name := "orders"; ds_projectId := "P2"; ds_columns := orders |}.
Proof.
  intros w dto. split.
  - apply (@createDataStore_duplicate_name sample_collaborators "P1" dto w).
    compute_done.
  - rewrite (proj2 (proj2 (@createDataStore_duplicate_name sample_collaborators
                             "P2" dto w))) by compute_done.
    reflexivity.
Defined.

Lemma run_eta {A} (m : M A) (w : World) c : (m w).1 = c → m w = (c, (m w).2).
Proof. intros <-. by destruct (m w). Qed.

Lemma write_after_validation_witness :
  let w := world orders (objects [[("paid", Boolean true); ("total", Null)];
                                  [("paid", String_ "yes"); ("total", Null)]]) in
  (@insertRows sample_implementation sample_collaborators "orders"
     [0%nat; 1%nat] w).1
  = Throw (UserError "value 'yes' does not match column type 'boolean'")
  ∧ rowsRepository
      (@insertRows sample_implementation sample_collaborators "orders"
         [0%nat; 1%nat] w).2 = [].
Proof.
  intros w.
  pose proof (run_eta (@validateRows sample_implementation "orders" [0%nat; 1%nat])
                w (Throw (UserError
                            "value 'yes' does not match column type 'boolean'"))
                ltac:(vm_compute; reflexivity)) as Hrun.
  destruct (@write_after_validation sample_implementation sample_collaborators
              "orders" [0%nat; 1%nat] {| rows := []; matchFields := [] |} w)
    as (Hinsert & _ & Hcalls).
  rewrite Hrun in Hinsert. rewrite Hinsert. split; [reflexivity|].
  apply (Hcalls _ _ _ Hrun).
Defined.

(** C10.  [validateRows] writes into the row objects of its caller, and what
    it has written stays when it throws: if the call fails after the rows
    [pre] have passed, every date of a date column in the rows of [pre],
    and in the cells of the next row that have passed, is by then its
    ISO-8601 string in the heap the caller sees, so the batch is not what
    it was; [insertRows] and [upsertRows] fail with the same heap. *)
Theorem validateRows_failure_keeps_writes `{Implementation} `{Collaborators}
    dataStoreId pre l post w w1 e w' :
  let columns := columnRepository w dataStoreId in
  columns ≠ [] →
  Forall (λ l, wf_row (heap w l)) (pre ++ [l]) →
  validateRows dataStoreId pre w = (Normal tt, w1) →
  validateRows dataStoreId (pre ++ l :: post) w = (Throw e, w') →
  (∀ l' k t, l' ∈ pre → column_type columns k = Some date →
             row_get (heap w l') k = Date (Some t) →
             row_get (heap w' l') k = String_ (iso_string t)
             ∧ heap w' l' ≠ heap w l')
  ∧ (∀ r1 r2 k t, heap w l = r1 ++ r2 →
                  length columns = length (heap w l) →
                  entries_accepted columns r1 →
                  (k, Date (Some t)) ∈ r1 →
                  column_type columns k = Some date →
                  row_get (heap w' l) k = String_ (iso_string t)
                  ∧ heap w' l ≠ heap w l)
  ∧ insertRows dataStoreId (pre ++ l :: post) w = (Throw e, w')
  ∧ ∀ fields, upsertRows dataStoreId
                {| rows := pre ++ l :: post; matchFields := fields |} w
              = (Throw e, w').
Proof.
  intros columns Hne Hwf Hpre Hrun.
  apply Forall_app in Hwf as [Hwfpre Hwfl].
  rewrite Forall_singleton in Hwfl. rewrite Forall_forall in Hwfpre.
  destruct (validateRows_app dataStoreId pre (l :: post) w w1 Hne Hpre)
    as (w2 & Hrun2 & _ & Hh').
  rewrite Hrun in Hrun2. injection Hrun2 as Hc <-.
  destruct (validateRows_nonempty dataStoreId pre w Hne) as (w1' & Hrun1 & _ & Hh1).
  rewrite Hpre in Hrun1. injection Hrun1 as Hok <-.
  fold columns in Hh', Hh1, Hok, Hc.
  destruct (check_rows_Normal columns pre (heap w) Hwfpre (eq_sym Hok))
    as [_ Hstored].
  assert (∀ l' k t, column_type columns k = Some date →
                    row_get (heap w l') k = Date (Some t) →
                    row_get (heap w' l') k = String_ (iso_string t) →
                    heap w' l' ≠ heap w l') as Hchanged.
  { intros l' k t _ Hget Hget' Heq. rewrite Heq, Hget in Hget'. done. }
  assert (∀ l' k t, l' ∈ pre → column_type columns k = Some date →
                    row_get (heap w l') k = Date (Some t) →
                    row_get (heap w' l') k = String_ (iso_string t)) as Hrows.
  { intros l' k t Hl' Hty Hget.
    assert (row_get (heap w1 l') k = String_ (iso_string t)) as Hget1.
    { rewrite Hh1, Hstored, bool_decide_eq_true_2 by done.
      by rewrite stored_row_get, Hty, Hget. }
    rewrite Hh'.
    destruct (check_rows_get columns (l :: post) (heap w1) l' k) as [-> | ->];
      rewrite Hget1; [done|]. by rewrite Hty. }
  split; [|split; [|split]].
  - intros l' k t Hl' Hty Hget. split; [by apply Hrows|].
    apply (Hchanged l' k t); auto.
  - intros r1 r2 k t Hrow Hlen Hacc Hin Hty.
    assert (row_get (heap w l) k = Date (Some t)) as Hget.
    { apply row_get_elem_of; [done|]. rewrite Hrow, elem_of_app. by left. }
    assert (row_get (heap w' l) k = String_ (iso_string t)) as Hget';
      [|split; [done|by apply (Hchanged l k t)]].
    destruct (decide (l ∈ pre)) as [Hl|Hl]; [by apply Hrows|].
    assert (heap w1 l = heap w l) as Hl1.
    { by rewrite Hh1, Hstored, bool_decide_eq_false_2. }
    assert (row_get (check_row columns (heap w l)).2 k = String_ (iso_string t))
      as Hget1.
    { apply row_get_elem_of.
      - unfold wf_row. by rewrite check_row_keys.
      - rewrite check_row_entries by done.
        rewrite bool_decide_eq_true_2 by done.
        rewrite Hrow, check_entries_app by done. simpl.
        apply elem_of_app. left. unfold stored_row.
        apply list_elem_of_fmap. exists (k, Date (Some t)).
        split; [|done]. simpl. by rewrite Hty. }
    rewrite Hh'. simpl. rewrite Hl1.
    destruct (check_row columns (heap w l)) as [[[]|e0] r]; simpl in *.
    + destruct (check_rows_get columns post (<[l:=r]> (heap w1)) l k) as [-> | ->];
        rewrite fn_lookup_insert, Hget1; [done|]. by rewrite Hty.
    + by rewrite fn_lookup_insert.
  - unfold insertRows, mbind, M_bind. by rewrite Hrun.
  - intros fields. unfold upsertRows, mbind, M_bind. simpl. by rewrite Hrun.
Qed.

Definition visits : list DataStoreColumn :=
  [ {| name := "at"; type := date |}; {| name := "note"; type := string_ |} ].

Lemma validateRows_failure_keeps_writes_witness :
  let w := world visits
             (objects [[("at", Date (Some 0)); ("note", String_ "first")];
                       [("at", Date (Some 86400000));
                        ("note", Number (number_of_Z 5))]]) in
  ∃ w', @validateRows sample_implementation "visits" [0%nat; 1%nat] w
        = (Throw (UserError "value '5' does not match column type 'string'"), w')
        ∧ row_get (heap w' 0%nat) "at" = String_ "1970-01-01T00:00:00.000Z"
        ∧ row_get (heap w' 1%nat) "at" = String_ "1970-01-02T00:00:00.000Z"
        ∧ heap w' 0%nat ≠ heap w 0%nat
        ∧ heap w' 1%nat ≠ heap w 1%nat.
Proof.
  intros w.
  pose proof (run_eta (@validateRows sample_implementation "visits" [0%nat])
                w (Normal tt) ltac:(vm_compute; reflexivity)) as Hpre.
  pose proof (run_eta (@validateRows sample_implementation "visits"
                         [0%nat; 1%nat]) w
                (Throw (UserError "value '5' does not match column type 'string'"))
                ltac:(vm_compute; reflexivity)) as Hrun.
  destruct (@validateRows_failure_keeps_writes sample_implementation
              sample_collaborators "visits" [0%nat] 1%nat [] w _ _ _
              ltac:(discriminate) ltac:(compute_done) Hpre Hrun)
    as (Hrows & Hcells & _).
  eexists. split; [exact Hrun|].
  destruct (Hrows 0%nat "at" 0 ltac:(compute_done) ltac:(vm_compute; reflexivity)
              ltac:(vm_compute; reflexivity)) as [Hat0 Hne0].
  destruct (Hcells [("at", Date (Some 86400000))]
              [("note", Number (number_of_Z 5))] "at" 86400000
              ltac:(reflexivity) ltac:(reflexivity) ltac:(compute_done)
              ltac:(compute_done) ltac:(vm_compute; reflexivity)) as [Hat1 Hne1].
  repeat split; assumption.
Defined.

(* ===================================================================== *)
(** ** Properties: write, then read *)
(* ===================================================================== *)

Lemma normalizeCell_stored `{Implementation} ty v :
  cell_accepted (Some ty) v = true → wf_value v →
  normalizeCell (Some ty) (stored_cell (Some ty) v) = v.
Proof.
  intros Hacc Hwf.
  destruct ty, v as [| |b|x|s|[t|]|o]; try done.
  simpl in Hwf. cbn [stored_cell normalizeCell]. unfold normalizeDate.
  cbn [instanceof_Date typeof String.eqb Ascii.eqb Bool.eqb orb new_Date].
  by rewrite DateParse_toISOString.
Qed.

(** C6.  Round trip: for every row accepted by [validateRows] against a
    schema, [normalizeRows] with the same schema, applied to the row in the
    form validation has stored, yields the original cell for every string,
    number and boolean column, and for every non-null cell of a date column
    a valid date; that date is the original one. *)
Theorem validate_then_normalize `{Implementation} dataStoreId batch w w' :
  let columns := columnRepository w dataStoreId in
  Forall (λ l, wf_row (heap w l) ∧ Forall (λ kv, wf_value kv.2) (heap w l)) batch →
  validateRows dataStoreId batch w = (Normal tt, w') →
  ∀ i l, batch !! i = Some l →
    ∃ r', normalizeRows (heap w' <$> batch) columns !! i = Some r'
          ∧ r'.*1 = (heap w l).*1
          ∧ ∀ k v, (k, v) ∈ heap w l →
              match column_type columns k with
              | Some date =>
                  (v = Null → row_get r' k = Null)
                  ∧ (v ≠ Null → ∃ t, row_get r' k = Date (Some t) ∧ v = Date (Some t))
              | _ => row_get r' k = v
              end.
Proof.
  intros columns Hwf Hrun i l Hi. rewrite Forall_forall in Hwf.
  assert (columns ≠ []) as Hne.
  { intros Hnil.
    destruct (validateRows_spec dataStoreId batch w) as (w2 & Hrun2 & _).
    cbv zeta in Hrun2. fold columns in Hrun2. rewrite Hrun, Hnil in Hrun2. done. }
  destruct (validateRows_nonempty dataStoreId batch w Hne) as (w2 & Hrun2 & _ & Hh).
  rewrite Hrun in Hrun2. injection Hrun2 as Hok <-. fold columns in Hok, Hh.
  destruct (check_rows_Normal columns batch (heap w)) as [Hacc Hstored];
    [by intros l0 Hl0; apply Hwf|done|].
  assert (∀ l0, l0 ∈ batch → heap w' l0 = stored_row columns (heap w l0)) as Hw'.
  { intros l0 Hl0. by rewrite Hh, Hstored, bool_decide_eq_true_2. }
  pose proof (list_elem_of_lookup_2 _ _ _ Hi) as Hl.
  destruct (Hwf l Hl) as [Hwfl Hvalues]. destruct (Hacc l Hl) as [_ Hentries].
  rewrite entries_accepted_elem_of in Hentries. rewrite Forall_forall in Hvalues.
  exists (normalized_row columns (stored_row columns (heap w l))).
  split; [|split].
  - rewrite normalizeRows_wf.
    + by rewrite !list_lookup_fmap, Hi, <- Hw'.
    + rewrite Forall_fmap. apply Forall_forall. intros l0 Hl0. unfold compose.
      rewrite Hw' by done. apply stored_row_wf, Hwf, Hl0.
  - by rewrite normalized_row_keys, stored_row_keys.
  - intros k v Hin. destruct (Hentries k v Hin) as [Hk Hcell].
    specialize (Hvalues _ Hin). simpl in Hvalues.
    apply column_type_is_Some in Hk as [ty Hty].
    assert (row_get (normalized_row columns (stored_row columns (heap w l))) k = v)
      as Hget.
    { rewrite (normalized_row_get _ _ k (stored_cell (column_type columns k) v)).
      - rewrite Hty in *. by apply normalizeCell_stored.
      - by apply stored_row_wf.
      - unfold stored_row. apply list_elem_of_fmap. by exists (k, v). }
    rewrite Hget, Hty. rewrite Hty in Hcell.
    destruct ty; try done. split; [done|]. intros Hv.
    destruct v as [| |b|x|s|[t|]|o]; try done. by exists t.
Qed.

Lemma validate_then_normalize_witness :
  let w := world visits
             (objects [[("at", Date (Some 1000000000000)); ("note", String_ "first")]]) in
  ∃ r', @normalizeRows sample_implementation
          (heap (@validateRows sample_implementation "visits" [0%nat] w).2
             <$> [0%nat]) visits !! 0%nat = Some r'
        ∧ row_get r' "at" = Date (Some 1000000000000)
        ∧ row_get r' "note" = String_ "first".
Proof.
  intros w.
  pose proof (run_eta (@validateRows sample_implementation "visits" [0%nat])
                w (Normal tt) ltac:(vm_compute; reflexivity)) as Hrun.
  destruct (@validate_then_normalize sample_implementation "visits" [0%nat] w _
              ltac:(compute_done) Hrun 0%nat 0%nat eq_refl)
    as (r' & Hr' & _ & Hcells).
  exists r'. split; [exact Hr'|].
  pose proof (Hcells "at" (Date (Some 1000000000000)) ltac:(compute_done)) as Hat.
  pose proof (Hcells "note" (String_ "first") ltac:(compute_done)) as Hnote.
  split.
  - destruct Hat as [_ Hat]. destruct Hat as (t & -> & [= <-]); done.
  - exact Hnote.
Defined.

(* ===================================================================== *)
(** ** Further properties: the write path *)
(* ===================================================================== *)

(** X1.  Whatever its outcome, [validateRows] leaves the collaborators and
    the row objects outside the batch as they are, adds, removes or
    reorders no key of any row, and changes a cell in one way only: a
    valid date of a date column becomes its ISO-8601 string. *)
Theorem validateRows_only_rewrites_dates `{Implementation}
    dataStoreId batch w c w' :
  validateRows dataStoreId batch w = (c, w') →
  same_services w w'
  ∧ (∀ l, l ∉ batch → heap w' l = heap w l)
  ∧ (∀ l, (heap w' l).*1 = (heap w l).*1)
  ∧ ∀ l k, row_get (heap w' l) k = row_get (heap w l) k
           ∨ ∃ t, column_type (columnRepository w dataStoreId) k = Some date
                  ∧ row_get (heap w l) k = Date (Some t)
                  ∧ row_get (heap w' l) k = String_ (iso_string t).
Proof.
  intros Hrun.
  destruct (validateRows_spec dataStoreId batch w) as (w2 & Hrun2 & Hs & Hh).
  cbv zeta in Hrun2, Hh. rewrite Hrun in Hrun2. injection Hrun2 as _ <-.
  split; [done|].
  destruct (bool_decide (length (columnRepository w dataStoreId) = 0%nat)).
  { repeat split; intros; rewrite ?Hh; auto. }
  split; [|split].
  - intros l Hl. by rewrite Hh, check_rows_frame.
  - intros l. by rewrite Hh, check_rows_keys.
  - intros l k. rewrite Hh.
    destruct (check_rows_get (columnRepository w dataStoreId) batch (heap w) l k)
      as [-> | ->]; [by left|].
    destruct (column_type (columnRepository w dataStoreId) k) as [[]|];
      try (by left).
    destruct (row_get (heap w l) k) as [| |?|?|?|[t|]|?]; try (by left).
    right. by exists t.
Qed.

Lemma validateRows_only_rewrites_dates_witness :
  let w := world visits
             (objects [[("at", Date (Some 0)); ("note", Undefined)]]) in
  (heap (@validateRows sample_implementation "visits" [0%nat] w).2 0%nat).*1
  = ["at"; "note"].
Proof.
  intros w.
  pose proof (run_eta (@validateRows sample_implementation "visits" [0%nat])
                w (Throw TypeError) ltac:(vm_compute; reflexivity)) as Hrun.
  destruct (@validateRows_only_rewrites_dates sample_implementation "visits"
              [0%nat] w _ _ Hrun) as (_ & _ & Hkeys & _).
  rewrite (Hkeys 0%nat). reflexivity.
Defined.

(** A row with as many distinct keys as there are columns, all of them
    column names, has exactly the column names as keys, and the column
    names are distinct. *)
Lemma keys_of_accepted_row (names keys : list string) :
  NoDup keys → length names = length keys → (∀ k, k ∈ keys → k ∈ names) →
  keys ≡ₚ names.
Proof.
  intros Hnd Hlen Hsub. apply submseteq_length_Permutation; [|lia].
  by apply NoDup_submseteq.
Qed.

Lemma row_accepted_conforms `{Implementation} columns r :
  wf_row r → row_accepted columns r → row_conforms columns r ∧ valid_dates r.
Proof.
  intros Hwf [Hlen Hacc]. rewrite entries_accepted_elem_of in Hacc.
  assert (r.*1 ≡ₚ name <$> columns) as Hperm.
  { apply keys_of_accepted_row; [done|by rewrite !length_fmap|].
    intros k (kv & -> & Hin)%list_elem_of_fmap. destruct kv as [k v].
    by apply (Hacc k v). }
  assert (NoDup (name <$> columns)) as Hnd by (by rewrite <- Hperm).
  split; [split; [done|split; [done|]]|].
  - apply Forall_forall. intros [k v] Hin. apply Forall_forall.
    intros c Hc Hk Hv. simpl in *. subst k.
    destruct (Hacc _ _ Hin) as [_ Hcell].
    rewrite (column_type_elem_of columns c Hnd Hc) in Hcell.
    by destruct (type c), v as [| |b|x|s|[t|]|o].
  - apply Forall_forall. intros [k v] Hin. simpl. intros ->.
    destruct (Hacc _ _ Hin) as [Hk Hcell].
    apply column_type_is_Some in Hk as [ty Hty]. rewrite Hty in Hcell.
    by destruct ty.
Qed.

(** X2.  The exact condition of acceptance.  For a batch of distinct row
    objects, [validateRows] succeeds if and only if the schema is not empty
    and every row has exactly the column names as keys, every non-null
    cell has the runtime type its column declares, and no date is the
    invalid date.  The count of the keys and their membership in the
    schema are all the code compares: they are enough to rule out a missing
    column. *)
Theorem validateRows_accepts_iff `{Implementation} dataStoreId batch w :
  let columns := columnRepository w dataStoreId in
  NoDup batch →
  Forall (λ l, wf_row (heap w l)) batch →
  (∃ w', validateRows dataStoreId batch w = (Normal tt, w'))
  ↔ columns ≠ []
    ∧ Forall (λ l, row_conforms columns (heap w l) ∧ valid_dates (heap w l)) batch.
Proof.
  intros columns Hnd Hwf. rewrite Forall_forall in Hwf. split.
  - intros [w' Hrun].
    assert (columns ≠ []) as Hne.
    { intros Hnil.
      destruct (validateRows_spec dataStoreId batch w) as (w2 & Hrun2 & _).
      cbv zeta in Hrun2. fold columns in Hrun2. rewrite Hrun, Hnil in Hrun2. done. }
    split; [done|].
    destruct (validateRows_nonempty dataStoreId batch w Hne) as (w2 & Hrun2 & _).
    rewrite Hrun in Hrun2. injection Hrun2 as Hok _. fold columns in Hok.
    destruct (check_rows_Normal columns batch (heap w) Hwf (eq_sym Hok)) as [Hacc _].
    apply Forall_forall. intros l Hl. apply row_accepted_conforms; auto.
  - intros [Hne Hrows]. rewrite Forall_forall in Hrows.
    destruct (validateRows_nonempty dataStoreId batch w Hne) as (w' & Hrun & _).
    fold columns in Hrun. exists w'. rewrite Hrun. f_equal.
    apply check_rows_accepted; [|by apply no_shared_dates_NoDup].
    intros l Hl. destruct (Hrows l Hl) as [Hconf Hvalid].
    split; [apply Hconf|by apply row_conforms_accepted].
Qed.

Lemma validateRows_accepts_iff_witness :
  let w := world orders
             (objects [[("total", Number (number_of_Z 3)); ("paid", Null)];
                       [("paid", Boolean false); ("total", Null)]]) in
  ∃ w', @validateRows sample_implementation "orders" [0%nat; 1%nat] w
        = (Normal tt, w').
Proof.
  intros w.
  apply (@validateRows_accepts_iff sample_implementation "orders"
           [0%nat; 1%nat] w ltac:(compute_done) ltac:(compute_done)).
  compute_done.
Defined.

(** Validating rows that are already in their stored form: either none of
    them held a date, and they pass again, or the first stored date is
    rejected as a string in a date column. *)
Lemma check_entries_stored `{Implementation} columns r :
  entries_accepted columns r →
  (check_entries columns (stored_row columns r)).1 = Normal tt
  ∨ ∃ t, (check_entries columns (stored_row columns r)).1
         = Throw (mismatch (iso_string t) "date").
Proof.
  induction r as [|[k v] r IH]; intros Hacc; [by left|].
  apply Forall_cons in Hacc as [[Hk Hv] Hacc]. simpl in Hk, Hv.
  unfold stored_row. cbn [fmap list_fmap check_entries fst snd].
  rewrite bool_decide_eq_true_2 by done.
  fold (stored_row columns r).
  destruct (column_type columns k) as [[]|] eqn:Hty;
    destruct v as [| |b|x|s|[t|]|o]; try done; simpl;
    try (right; by exists t);
    destruct (IH Hacc) as [Hok|[t' Hno]];
    destruct (check_entries columns (stored_row columns r)); simpl in *;
    subst; eauto.
Qed.

Lemma check_rows_stored `{Implementation} columns batch h :
  (∀ l, l ∈ batch →
        wf_row (h l) ∧ ∃ r, row_accepted columns r ∧ h l = stored_row columns r) →
  (check_rows columns batch h).1 = Normal tt
  ∨ ∃ t, (check_rows columns batch h).1 = Throw (mismatch (iso_string t) "date").
Proof.
  induction batch as [|l batch IH]; intros Hrows; [by left|].
  destruct (Hrows l) as (Hwf & r & [Hlen Hacc] & Hl); [left|].
  cbn [check_rows]. rewrite check_row_entries by done.
  rewrite Hl, stored_row_length, bool_decide_eq_true_2 by done.
  pose proof (check_entries_stored columns r Hacc) as Hrow.
  destruct (check_entries columns (stored_row columns r)) as [[[]|e] r'] eqn:Hr;
    simpl in Hrow.
  - apply check_entries_Normal in Hr as [_ ->].
    rewrite stored_row_idemp, <- Hl.
    destruct (check_rows_ext columns batch (<[l:=h l]> h) h) as [-> _].
    { intros l'. destruct (decide (l = l')) as [->|Hne].
      - by rewrite fn_lookup_insert.
      - by rewrite fn_lookup_insert_ne. }
    apply IH. intros l' Hl'. apply Hrows. by right.
  - destruct Hrow as [|[t Ht]]; [done|]. right. by exists t.
Qed.

(** X3.  [validateRows] cannot be applied twice to the same row objects
    once it has written a date: after a successful call in which some row
    held a date, a second call on the same batch (a retry after a failure
    of the storage, say) is rejected with the date type-mismatch error
    naming an ISO string.  If no row held a date, the second call succeeds
    like the first and changes nothing. *)
Theorem validateRows_again `{Implementation} dataStoreId batch w w' :
  let columns := columnRepository w dataStoreId in
  Forall (λ l, wf_row (heap w l)) batch →
  validateRows dataStoreId batch w = (Normal tt, w') →
  (Exists (λ l, stored_row columns (heap w l) ≠ heap w l) batch →
   ∃ t w'', validateRows dataStoreId batch w'
            = (Throw (UserError ("value '" +:+ iso_string t
                                   +:+ "' does not match column type 'date'")),
               w''))
  ∧ (Forall (λ l, stored_row columns (heap w l) = heap w l) batch →
     ∃ w'', validateRows dataStoreId batch w' = (Normal tt, w'')
            ∧ ∀ l, heap w'' l = heap w l).
Proof.
  intros columns Hwf Hrun. rewrite Forall_forall in Hwf.
  assert (columns ≠ []) as Hne.
  { intros Hnil.
    destruct (validateRows_spec dataStoreId batch w) as (w2 & Hrun2 & _).
    cbv zeta in Hrun2. fold columns in Hrun2. rewrite Hrun, Hnil in Hrun2. done. }
  destruct (validateRows_nonempty dataStoreId batch w Hne)
    as (w2 & Hrun2 & (Hcols & _) & Hh).
  rewrite Hrun in Hrun2. injection Hrun2 as Hok <-. fold columns in Hok, Hh.
  destruct (check_rows_Normal columns batch (heap w) Hwf (eq_sym Hok))
    as [Hacc Hstored].
  assert (∀ l, l ∈ batch → heap w' l = stored_row columns (heap w l)) as Hw'.
  { intros l Hl. by rewrite Hh, Hstored, bool_decide_eq_true_2. }
  assert (columnRepository w' dataStoreId = columns) as Hcols'
      by (by rewrite Hcols).
  assert (columnRepository w' dataStoreId ≠ []) as Hne' by (by rewrite Hcols').
  destruct (validateRows_nonempty dataStoreId batch w' Hne')
    as (w'' & Hrun' & _ & Hh').
  rewrite Hcols' in Hrun', Hh'.
  assert (∀ l, l ∈ batch → wf_row (heap w' l)) as Hwf'.
  { intros l Hl. rewrite Hw' by done. by apply stored_row_wf, Hwf. }
  split.
  - intros (l & Hl & Hdate)%Exists_exists.
    destruct (check_rows_stored columns batch (heap w')) as [Hok'|[t Ht]].
    + intros l0 Hl0. split; [by apply Hwf'|].
      exists (heap w l0). split; [by apply Hacc|by apply Hw'].
    + exfalso. apply Hdate.
      destruct (check_rows_Normal columns batch (heap w') Hwf' Hok') as [Hacc' _].
      apply stored_row_accepted_twice; [by apply Hacc|].
      rewrite <- Hw' by done. by apply Hacc'.
    + exists t, w''. by rewrite Hrun', Ht.
  - intros Hsame. rewrite Forall_forall in Hsame.
    assert (∀ l, heap w' l = heap w l) as Heq.
    { intros l. rewrite Hh, Hstored. destruct (decide (l ∈ batch)).
      - rewrite bool_decide_eq_true_2 by done. by apply Hsame.
      - by rewrite bool_decide_eq_false_2. }
    destruct (check_rows_ext columns batch (heap w') (heap w) Heq) as [Hc Hext].
    exists w''. rewrite Hrun', Hc, <- Hok. split; [done|].
    intros l. rewrite Hh', Hext, <- Hh. apply Heq.
Qed.

Lemma validateRows_again_witness :
  let w := world appointments (objects [[("at", Date (Some 0))]]) in
  ∃ t w'',
    @validateRows sample_implementation "appointments" [0%nat]
      (@validateRows sample_implementation "appointments" [0%nat] w).2
    = (Throw (UserError ("value '" +:+ iso_string t
                           +:+ "' does not match column type 'date'")), w'').
Proof.
  intros w.
  pose proof (run_eta (@validateRows sample_implementation "appointments" [0%nat])
                w (Normal tt) ltac:(vm_compute; reflexivity)) as Hrun.
  apply (proj1 (@validateRows_again sample_implementation "appointments"
                  [0%nat] w _ ltac:(compute_done) Hrun)).
  compute_done.
Defined.

(** The first cell of a row that does not pass decides the outcome. *)
Lemma validateRows_first_rejection `{Implementation} dataStoreId (l : loc) w
    r1 key v r2 ty :
  let columns := columnRepository w dataStoreId in
  columns ≠ [] → wf_row (heap w l) → length columns = length (heap w l) →
  heap w l = r1 ++ (key, v) :: r2 →
  entries_accepted columns r1 →
  column_type columns key = Some ty →
  cell_accepted (Some ty) v = false →
  ∃ e w', check_cell (Some ty) v = Throw e
          ∧ validateRows dataStoreId [l] w = (Throw e, w')
          ∧ heap w' l = stored_row columns r1 ++ (key, v) :: r2.
Proof.
  intros columns Hne Hwf Hlen Hrow Hacc Hty Hcell.
  destruct (validateRows_one dataStoreId l w Hne Hwf Hlen) as (w' & Hrun & Hl & _).
  fold columns in Hrun, Hl.
  rewrite Hrow, check_entries_app in Hrun, Hl by done.
  cbn [check_entries] in Hrun, Hl.
  rewrite bool_decide_eq_true_2 in Hrun, Hl
    by (apply column_type_is_Some; by rewrite Hty).
  rewrite Hty, Hcell in Hrun, Hl.
  destruct (check_cell_rejected _ _ Hcell) as [e He]. rewrite He in Hrun.
  exists e, w'. by rewrite He.
Qed.

(** X4.  A key that is present with the value undefined is not reported as
    a type mismatch in a boolean, string or number column: the message is
    built with [cell.toString()], which raises a TypeError on undefined.
    Only a date column, whose message is a template literal, answers with
    the type-mismatch error, naming the value 'undefined'. *)
Theorem validateRows_undefined_cell `{Implementation} dataStoreId (l : loc) w
    r1 key r2 ty :
  let columns := columnRepository w dataStoreId in
  columns ≠ [] → wf_row (heap w l) → length columns = length (heap w l) →
  heap w l = r1 ++ (key, Undefined) :: r2 →
  entries_accepted columns r1 →
  column_type columns key = Some ty →
  ∃ w', validateRows dataStoreId [l] w
        = (Throw (match ty with
                  | date => UserError
                              "value 'undefined' does not match column type 'date'"
                  | _ => TypeError
                  end), w').
Proof.
  intros columns Hne Hwf Hlen Hrow Hacc Hty.
  destruct (validateRows_first_rejection dataStoreId l w r1 key Undefined r2 ty
              Hne Hwf Hlen Hrow Hacc Hty) as (e & w' & He & Hrun & _).
  { by destruct ty. }
  exists w'. rewrite Hrun. f_equal.
  destruct ty; simpl in He; by injection He as <-.
Qed.

Lemma validateRows_undefined_cell_witness :
  ∃ w', @validateRows sample_implementation "orders" [0%nat]
          (world orders (objects [[("paid", Null); ("total", Undefined)]]))
        = (Throw TypeError, w').
Proof.
  apply (@validateRows_undefined_cell sample_implementation "orders" 0%nat
           (world orders (objects [[("paid", Null); ("total", Undefined)]]))
           [("paid", Null)] "total" [] number_
           ltac:(discriminate) ltac:(compute_done) ltac:(reflexivity)
           ltac:(reflexivity) ltac:(compute_done) ltac:(vm_compute; reflexivity)).
Defined.

(** The name of a column type in the messages of [validateRows]. *)
Definition ColumnType_name (ty : ColumnType) : string :=
  match ty with
  | boolean => "boolean"
  | date => "date"
  | string_ => "string"
  | number_ => "number"
  end.

(** X5.  The type-mismatch error names the offending value and the type
    that was expected.  The message is built by converting the cell to a
    string: with the method call [cell.toString()] in a boolean, string or
    number column, with a template literal in a date column.  For a
    non-null cell whose runtime type is not the declared type of its
    column, and whose conversion yields the string s, the error is
    "value 's' does not match column type '<type>'".  The premise is that
    the conversion yields: where it raises instead (undefined outside a
    date column; an object whose own [toString] cannot be called, which the
    value type leaves out), what it raises is the outcome, not this
    message. *)
Theorem validateRows_mismatch_message `{Implementation} dataStoreId (l : loc) w
    r1 key v r2 ty shown :
  let columns := columnRepository w dataStoreId in
  columns ≠ [] → wf_row (heap w l) → length columns = length (heap w l) →
  heap w l = r1 ++ (key, v) :: r2 →
  entries_accepted columns r1 →
  column_type columns key = Some ty →
  v ≠ Null → runtime_type_matches ty v = false →
  match ty with
  | date => ToString v = shown
  | _ => call_toString v = Normal shown
  end →
  ∃ w', validateRows dataStoreId [l] w
        = (Throw (UserError ("value '" +:+ shown
                               +:+ "' does not match column type '"
                               +:+ ColumnType_name ty +:+ "'")), w')
        ∧ heap w' l = stored_row columns r1 ++ (key, v) :: r2.
Proof.
  intros columns Hne Hwf Hlen Hrow Hacc Hty Hnull Hmatch Hshown.
  destruct (validateRows_first_rejection dataStoreId l w r1 key v r2 ty
              Hne Hwf Hlen Hrow Hacc Hty) as (e & w' & He & Hrun & Hl).
  { by destruct ty, v as [| |b|x|s|[t|]|o]. }
  exists w'. split; [|done]. rewrite Hrun. f_equal.
  destruct ty, v as [| |b|x|s|[t|]|o]; try done;
    cbn [check_cell typeof call_toString instanceof_Date String.eqb Ascii.eqb
           Bool.eqb negb] in He, Hshown;
    try discriminate Hshown;
    try (injection Hshown as <-); try (rewrite <- Hshown);
    by injection He as <-.
Qed.

Lemma validateRows_mismatch_message_witness :
  ∃ w', @validateRows sample_implementation "orders" [0%nat]
          (world orders (objects [[("paid", String_ "yes");
                                   ("total", Number (number_of_Z 10))]]))
        = (Throw (UserError "value 'yes' does not match column type 'boolean'"), w')
        ∧ heap w' 0%nat = [("paid", String_ "yes");
                           ("total", Number (number_of_Z 10))].
Proof.
  apply (@validateRows_mismatch_message sample_implementation "orders" 0%nat
           (world orders (objects [[("paid", String_ "yes");
                                    ("total", Number (number_of_Z 10))]]))
           [] "paid" (String_ "yes") [("total", Number (number_of_Z 10))] boolean
           "yes"
           ltac:(discriminate) ltac:(compute_done) ltac:(reflexivity)
           ltac:(reflexivity) ltac:(compute_done) ltac:(vm_compute; reflexivity)
           ltac:(discriminate) ltac:(reflexivity) ltac:(reflexivity)).
Defined.

(** X6.  Empty inputs.  With a schema, an empty batch passes validation,
    and [insertRows] still calls the storage, with no rows.  Without
    columns (a data store that has none, or that does not exist), every
    write fails with the no-columns error, the empty batch included, and
    the world is left as it is. *)
Theorem insertRows_empty_inputs `{Implementation} `{Collaborators}
    dataStoreId w :
  let columns := columnRepository w dataStoreId in
  (columns ≠ [] →
   validateRows dataStoreId [] w = (Normal tt, w)
   ∧ rowsRepository (insertRows dataStoreId [] w).2
     = rowsRepository w ++ [InsertRowsCall (toTableName dataStoreId) [] columns]
   ∧ (insertRows dataStoreId [] w).1
     = answer (rowsRepository_answer
                 (rowsRepository w
                  ++ [InsertRowsCall (toTableName dataStoreId) [] columns])))
  ∧ (columns = [] →
     ∀ batch,
       insertRows dataStoreId batch w
       = (Throw (UserError
                   "No columns found for this data store or data store not found"),
          w)).
Proof.
  intros columns. split.
  - intros Hne.
    assert (validateRows dataStoreId [] w = (Normal tt, w)) as Hrun.
    { unfold validateRows, mbind, M_bind, getColumns. simpl. fold columns.
      rewrite bool_decide_eq_false_2; [done|]. by intros ?%nil_length_inv. }
    split; [done|].
    unfold insertRows, mbind, M_bind. rewrite Hrun. done.
  - intros Hnil batch. unfold insertRows, mbind, M_bind.
    by rewrite (validateRows_empty_schema dataStoreId batch w Hnil).
Qed.

Lemma insertRows_empty_inputs_witness :
  rowsRepository
    (@insertRows sample_implementation sample_collaborators "orders" []
       (world orders (objects []))).2
  = [InsertRowsCall "data_store_user_orders" [] orders].
Proof.
  apply (@insertRows_empty_inputs sample_implementation sample_collaborators
           "orders" (world orders (objects []))).
  discriminate.
Defined.

(** A cell as the storage receives it: null, or a boolean, a string or a
    number in a column of that type, or the ISO string of a date in a date
    column. *)
Definition storable_cell (ty : option ColumnType) (v : value) : Prop :=
  match v, ty with
  | Null, Some _ => True
  | Boolean _, Some boolean => True
  | String_ _, Some string_ => True
  | Number _, Some number_ => True
  | String_ s, Some date => ∃ t, s = iso_string t
  | _, _ => False
  end.

Lemma stored_cell_storable ty v :
  cell_accepted (Some ty) v = true → storable_cell (Some ty) (stored_cell (Some ty) v).
Proof. destruct ty, v as [| |b|x|s|[t|]|o]; try done. simpl. by exists t. Qed.

(** *** The write path among other requests

    [insertRows] and [upsertRows] await the column repository twice: once
    in [validateRows], and once more for the schema they hand to the
    storage.  Other requests run while the service waits, and they may add
    or delete columns.  [others] is what they have done to the world
    between the return of [validateRows] and the second answer of the
    column repository; no await stands between that answer and the call to
    the storage. *)
Section among_other_requests.
Context `{Implementation} `{Collaborators}.
Variable others : World → World.

Definition insertRows_among (dataStoreId : string) (rows : list loc) : M value :=
  validateRows dataStoreId rows;;
  (λ w, (Normal tt, others w));;
  columns ← getColumns dataStoreId;
  rowsRepository_call
    (λ h, InsertRowsCall (toTableName dataStoreId) (h <$> rows) columns).

Definition upsertRows_among (dataStoreId : string) (dto : UpsertDataStoreRowsDto)
  : M value :=
  validateRows dataStoreId (rows dto);;
  (λ w, (Normal tt, others w));;
  columns ← getColumns dataStoreId;
  rowsRepository_call
    (λ h, UpsertRowsCall (toTableName dataStoreId) (h <$> rows dto)
            (matchFields dto) columns).

End among_other_requests.

(** X7.  What the storage receives.  When a batch of row objects passes
    validation, [insertRows] and [upsertRows] call the storage once, with
    the physical table of the data store, the rows of the batch and the
    schema.  The rows are in the form validation has stored, which follows
    the schema that validation read: every row has one cell per column of
    that schema, and every cell is null or a value of its column's type, a
    date being its ISO-8601 string, never a Date object or undefined.  The
    schema handed over is not that one but the one read again after
    validation: whatever other requests have done to the columns in
    between is what the storage is given, so the rows are known to fit the
    schema they come with only if the columns were not changed meanwhile.
    With no other request at work the operations are [insertRows] and
    [upsertRows] as they run alone. *)
Theorem storage_receives_stored_rows `{Implementation} `{Collaborators}
    (others : World → World) dataStoreId batch fields w w1 :
  let validated := columnRepository w dataStoreId in
  let read_again := columnRepository (others w1) dataStoreId in
  Forall (λ l, wf_row (heap w l)) batch →
  validateRows dataStoreId batch w = (Normal tt, w1) →
  Forall (λ l, heap (others w1) l = heap w1 l) batch →
  ∃ data,
    rowsRepository (insertRows_among others dataStoreId batch w).2
    = rowsRepository (others w1)
      ++ [InsertRowsCall (toTableName dataStoreId) data read_again]
    ∧ rowsRepository
        (upsertRows_among others dataStoreId
           {| rows := batch; matchFields := fields |} w).2
      = rowsRepository (others w1)
        ++ [UpsertRowsCall (toTableName dataStoreId) data fields read_again]
    ∧ data = (λ l, stored_row validated (heap w l)) <$> batch
    ∧ Forall (λ r, length r = length validated
                   ∧ Forall (λ kv, storable_cell (column_type validated kv.1) kv.2) r)
             data
    ∧ w1 = {| heap := heap w1; columnRepository := columnRepository w;
              dataStoreRepository := dataStoreRepository w;
              rowsRepository := rowsRepository w |}
    ∧ (∀ rows, insertRows_among (λ w, w) dataStoreId rows w
               = insertRows dataStoreId rows w)
    ∧ (∀ dto, upsertRows_among (λ w, w) dataStoreId dto w
              = upsertRows dataStoreId dto w).
Proof.
  intros validated read_again Hwf Hrun Hrows.
  rewrite Forall_forall in Hwf. rewrite Forall_forall in Hrows.
  assert (validated ≠ []) as Hne.
  { intros Hnil.
    destruct (validateRows_spec dataStoreId batch w) as (w2 & Hrun2 & _).
    cbv zeta in Hrun2. fold validated in Hrun2. rewrite Hrun, Hnil in Hrun2. done. }
  destruct (validateRows_nonempty dataStoreId batch w Hne)
    as (w2 & Hrun2 & (Hcols & Hstores & Hlog) & Hh).
  rewrite Hrun in Hrun2. injection Hrun2 as Hok <-. fold validated in Hok, Hh.
  destruct (check_rows_Normal validated batch (heap w) Hwf (eq_sym Hok))
    as [Hacc Hstored].
  assert (heap (others w1) <$> batch
          = (λ l, stored_row validated (heap w l)) <$> batch) as Hdata.
  { apply list_fmap_ext. intros i l Hi. apply list_elem_of_lookup_2 in Hi.
    rewrite Hrows by done. by rewrite Hh, Hstored, bool_decide_eq_true_2. }
  exists ((λ l, stored_row validated (heap w l)) <$> batch).
  split; [|split; [|split; [done|split; [|split; [|split]]]]].
  - unfold insertRows_among, mbind, M_bind. rewrite Hrun.
    unfold getColumns, rowsRepository_call. simpl. by rewrite Hdata.
  - unfold upsertRows_among, mbind, M_bind. simpl. rewrite Hrun.
    unfold getColumns, rowsRepository_call. simpl. by rewrite Hdata.
  - rewrite Forall_fmap. apply Forall_forall. intros l Hl. unfold compose.
    destruct (Hacc l Hl) as [Hlen Hentries].
    split; [by rewrite stored_row_length|].
    unfold stored_row. rewrite Forall_fmap.
    eapply Forall_impl; [exact Hentries|]. intros [k v] [Hk Hv]. simpl in *.
    apply column_type_is_Some in Hk as [ty Hty]. rewrite Hty in *.
    by apply stored_cell_storable.
  - rewrite <- Hcols, <- Hstores, <- Hlog. by destruct w1.
  - intros rows. unfold insertRows_among, insertRows, mbind, M_bind.
    by destruct (validateRows dataStoreId rows w) as [[[]|e] w0].
  - intros dto. unfold upsertRows_among, upsertRows, mbind, M_bind.
    by destruct (validateRows dataStoreId (rows dto) w) as [[[]|e] w0].
Qed.

(** Another request deletes the column [note] of the data store while the
    rows, validated with it, wait for the second answer. *)
Definition note_deleted (w : World) : World :=
  {| heap := heap w; columnRepository := λ _, appointments;
     dataStoreRepository := dataStoreRepository w;
     rowsRepository := rowsRepository w |}.

Lemma storage_receives_stored_rows_witness :
  let w := world visits
             (objects [[("note", Null); ("at", Date (Some 86400000))]]) in
  rowsRepository
    (@insertRows_among sample_implementation sample_collaborators note_deleted
       "visits" [0%nat] w).2
  = [InsertRowsCall "data_store_user_visits"
       [[("note", Null); ("at", String_ "1970-01-02T00:00:00.000Z")]]
       appointments].
Proof.
  intros w.
  pose proof (run_eta (@validateRows sample_implementation "visits" [0%nat])
                w (Normal tt) ltac:(vm_compute; reflexivity)) as Hrun.
  destruct (@storage_receives_stored_rows sample_implementation
              sample_collaborators note_deleted "visits" [0%nat] [] w _
              ltac:(compute_done) Hrun ltac:(compute_done))
    as (data & -> & _ & -> & _).
  vm_compute. reflexivity.
Defined.

(* ===================================================================== *)
(** ** Further properties: the read path *)
(* ===================================================================== *)

(** X8.  The shape of what [normalizeRows] returns, for any schema and any
    row objects: as many rows, each with the keys of its source in the
    same order; a cell whose key is not a column is returned as it is
    (the schema may have changed since the rows were written); and every
    cell of a column is null or a value of the column's type. *)
Theorem normalizeRows_shape `{Implementation} columns (rows : list Row) :
  Forall wf_row rows →
  length (normalizeRows rows columns) = length rows
  ∧ ∀ i (r : Row), rows !! i = Some r →
      ∃ r', normalizeRows rows columns !! i = Some r'
            ∧ r'.*1 = r.*1
            ∧ ∀ k v, (k, v) ∈ r →
                (column_type columns k = None → row_get r' k = v)
                ∧ canonical (column_type columns k) (row_get r' k).
Proof.
  intros Hwf. rewrite normalizeRows_wf by done. split; [by rewrite length_fmap|].
  intros i r Hi. exists (normalized_row columns r).
  split; [by rewrite list_lookup_fmap, Hi|]. split; [apply normalized_row_keys|].
  intros k v Hin.
  rewrite (normalized_row_get columns r k v); [|..|done].
  - split; [by intros ->|apply normalizeCell_canonical].
  - rewrite Forall_forall in Hwf. apply Hwf. by eapply list_elem_of_lookup_2.
Qed.

Lemma normalizeRows_shape_witness :
  ∃ r', @normalizeRows sample_implementation
          [[("paid", Number (number_of_Z 0)); ("dropped", Date None)]] orders
          !! 0%nat = Some r'
        ∧ r'.*1 = ["paid"; "dropped"]
        ∧ row_get r' "dropped" = Date None.
Proof.
  destruct (@normalizeRows_shape sample_implementation orders
              [[("paid", Number (number_of_Z 0)); ("dropped", Date None)]]
              ltac:(compute_done)) as [_ Hrows].
  destruct (Hrows 0%nat [("paid", Number (number_of_Z 0)); ("dropped", Date None)]
              eq_refl) as (r' & Hr' & Hkeys & Hcells).
  exists r'. split; [done|]. split; [done|].
  apply (Hcells "dropped" (Date None)); [compute_done|vm_compute; reflexivity].
Defined.

(** X9.  Normalizing twice is normalizing once, for every schema and all
    row objects, canonical or not: what [normalizeRows] returns is a fixed
    point of [normalizeRows]. *)
Theorem normalizeRows_twice `{Implementation} columns (rows : list Row) :
  Forall wf_row rows →
  normalizeRows (normalizeRows rows columns) columns = normalizeRows rows columns.
Proof. apply normalizeRows_idempotent. Qed.

Lemma normalizeRows_twice_witness :
  let rows := [[("paid", String_ "1"); ("total", Boolean true)]] in
  @normalizeRows sample_implementation
    (@normalizeRows sample_implementation rows orders) orders
  = @normalizeRows sample_implementation rows orders.
Proof.
  intros rows.
  apply (@normalizeRows_twice sample_implementation orders rows).
  compute_done.
Defined.

(** X10.  What [normalizeDate] returns.  Null and undefined give null; a
    Date object is returned as it is, the invalid date included; a boolean
    or another object gives null.  A number is cut to an integer of
    milliseconds and gives that date if it lies in the time range, null
    otherwise.  A string gives a valid date or null, and the ISO-8601
    string that the write path stores for a date gives that date back. *)
Theorem normalizeDate_results `{Implementation} :
  normalizeDate Null = Null
  ∧ normalizeDate Undefined = Null
  ∧ (∀ tv, normalizeDate (Date tv) = Date tv)
  ∧ (∀ b, normalizeDate (Boolean b) = Null)
  ∧ (∀ o, normalizeDate (Object o) = Null)
  ∧ (∀ x, match truncate x with
          | Some t => if Z.abs t <=? maxTime
                      then normalizeDate (Number x) = Date (Some t)
                      else normalizeDate (Number x) = Null
          | None => normalizeDate (Number x) = Null
          end)
  ∧ (∀ s, normalizeDate (String_ s) = Null
          ∨ ∃ t, normalizeDate (String_ s) = Date (Some t))
  ∧ ∀ t, Z.abs t <= maxTime →
         normalizeDate (String_ (iso_string t)) = Date (Some t).
Proof.
  repeat split; try done.
  - intros x. unfold normalizeDate.
    cbn [instanceof_Date typeof String.eqb Ascii.eqb Bool.eqb orb new_Date ToNumber].
    destruct (truncate x) as [t|]; [|done]. unfold TimeClip.
    by destruct (Z.abs t <=? maxTime).
  - intros s. unfold normalizeDate.
    cbn [instanceof_Date typeof String.eqb Ascii.eqb Bool.eqb orb new_Date].
    destruct (DateParse s) as [t|]; eauto.
  - intros t Ht. unfold normalizeDate.
    cbn [instanceof_Date typeof String.eqb Ascii.eqb Bool.eqb orb new_Date].
    by rewrite DateParse_toISOString.
Qed.

Lemma normalizeDate_results_witness :
  @normalizeDate sample_implementation (String_ "2001-09-09T01:46:40.000Z")
  = Date (Some 1000000000000).
Proof.
  apply (proj2 (proj2 (proj2 (proj2 (proj2 (proj2 (proj2
           (@normalizeDate_results sample_implementation))))))) 1000000000000).
  vm_compute. discriminate.
Defined.

(** X11.  What [normalizeNumber] returns.  Null and undefined give null.
    A number is returned as it is, without a look at its value: NaN and
    the infinities come back.  Every other value is converted with
    [Number(value)]: it gives null if the conversion is NaN and the
    converted number otherwise.  So the result is null or a number, and
    the number is NaN only when the raw value is itself the number NaN.
    A boolean gives 1 or 0; the invalid date and an ordinary object give
    null. *)
Theorem normalizeNumber_results `{Implementation} :
  normalizeNumber Null = Null
  ∧ normalizeNumber Undefined = Null
  ∧ (∀ x, normalizeNumber (Number x) = Number x)
  ∧ (∀ v, v ≠ Null → v ≠ Undefined → (∀ x, v ≠ Number x) →
          (isNaN (ToNumber v) = true → normalizeNumber v = Null)
          ∧ (isNaN (ToNumber v) = false →
             normalizeNumber v = Number (ToNumber v)))
  ∧ (∀ v, normalizeNumber v = Null
          ∨ ∃ x, normalizeNumber v = Number x ∧ (isNaN x = true → v = Number x))
  ∧ normalizeNumber (Boolean true) = Number (number_of_Z 1)
  ∧ normalizeNumber (Boolean false) = Number (number_of_Z 0)
  ∧ normalizeNumber (Date None) = Null
  ∧ (∀ o, normalizeNumber (Object o) = Null).
Proof.
  assert (∀ v, v ≠ Null → v ≠ Undefined → (∀ x, v ≠ Number x) →
               normalizeNumber v
               = if isNaN (ToNumber v) then Null else Number (ToNumber v))
    as Hconverted.
  { intros v Hnull Hundef Hnumber. unfold normalizeNumber.
    destruct v as [| |b|x|s|tv|o]; try done. by destruct (Hnumber x). }
  do 3 (split; [done|]). split.
  { intros v Hnull Hundef Hnumber. rewrite Hconverted by done.
    split; by intros ->. }
  split; [|repeat split; vm_compute; reflexivity].
  intros v.
  destruct v as [| |b|x|s|tv|o]; try (by left);
    try (right; by exists x);
    rewrite Hconverted by done.
  - destruct (isNaN (ToNumber (Boolean b))) eqn:Hnan; [by left|].
    right. eexists. split; [done|]. by rewrite Hnan.
  - destruct (isNaN (ToNumber (String_ s))) eqn:Hnan; [by left|].
    right. eexists. split; [done|]. by rewrite Hnan.
  - destruct (isNaN (ToNumber (Date tv))) eqn:Hnan; [by left|].
    right. eexists. split; [done|]. by rewrite Hnan.
Qed.

Lemma normalizeNumber_results_witness :
  @normalizeNumber sample_implementation (String_ "abc") = Null
  ∧ @normalizeNumber sample_implementation (Date (Some 86400000))
    = Number (number_of_Z 86400000).
Proof.
  pose proof (@normalizeNumber_results sample_implementation)
    as (_ & _ & _ & Hconverted & _).
  split.
  - apply (Hconverted (String_ "abc")); try discriminate.
    vm_compute. reflexivity.
  - apply (Hconverted (Date (Some 86400000))); try discriminate.
    vm_compute. reflexivity.
Defined.

(* ===================================================================== *)
(** ** The service: listing rows *)
(* ===================================================================== *)

(** The read side of the row-storage collaborator, which is not in the
    sources: the options of a listing, and the page that
    [getManyAndCount] answers given the calls the storage has received. *)
Class RowsListing : Type := {
  ListDataStoreRowsOptions : Type;
  rowsRepository_getManyAndCount :
    list RowsCall → string → ListDataStoreRowsOptions → string + (number * list Row);
}.

(** The result of [getManyRowsAndCount]. *)
Record ManyRowsAndCount : Type := { count : number; data : list Row }.

Section listing.
Context `{Implementation} `{Collaborators} `{RowsListing}.

(** [dataStoreRowsRepository.getManyAndCount(table, options)]. *)
Definition getManyAndCount (table : string) (options : ListDataStoreRowsOptions)
  : M (number * list Row) :=
  λ w, (answer (rowsRepository_getManyAndCount (rowsRepository w) table options), w).

Definition getManyRowsAndCount (dataStoreId : string)
    (options : ListDataStoreRowsOptions) : M ManyRowsAndCount :=
  columns ← getColumns dataStoreId;
  result ← getManyAndCount (toTableName dataStoreId) options;
  mret {| count := result.1; data := normalizeRows result.2 columns |}.

End listing.

(** X12.  Listing is lenient where writing is strict.  [getManyRowsAndCount]
    never rejects what the storage answers: a failure of the storage goes
    through as it is, and a page comes back with its count untouched and
    its rows normalized against the current schema, the world being left as
    it is.  On a data store without columns, for which every write fails,
    the rows of the page are returned as the storage gave them. *)
Theorem getManyRowsAndCount_lenient `{Implementation} `{Collaborators}
    `{RowsListing} dataStoreId options w :
  let columns := columnRepository w dataStoreId in
  let answered :=
    rowsRepository_getManyAndCount (rowsRepository w)
      (toTableName dataStoreId) options in
  (∀ reason, answered = inl reason →
     getManyRowsAndCount dataStoreId options w = (Throw (StorageFailure reason), w))
  ∧ ∀ n page, answered = inr (n, page) →
      getManyRowsAndCount dataStoreId options w
      = (Normal {| count := n; data := normalizeRows page columns |}, w)
      ∧ length (normalizeRows page columns) = length page
      ∧ (Forall wf_row page → columns = [] → normalizeRows page columns = page).
Proof.
  intros columns answered.
  unfold getManyRowsAndCount, mbind, M_bind, getColumns, getManyAndCount. simpl.
  fold columns answered. split; [by intros reason ->|].
  intros n page ->. simpl.
  split; [done|]. split; [unfold normalizeRows; by rewrite length_fmap|].
  intros Hwf Hnil. apply normalizeRows_canonical_id; [done|].
  apply Forall_forall. intros r _. apply Forall_forall. intros [k v] _.
  simpl. assert (column_type columns k = None) as ->; [|done].
  rewrite Hnil. apply Map_new_lookup_None. apply not_elem_of_nil.
Qed.

(** A storage that answers a listing with the rows of the last insert. *)
Definition sample_listing : RowsListing :=
  {| ListDataStoreRowsOptions := unit;
     rowsRepository_getManyAndCount := λ calls table _,
       match last calls with
       | Some (InsertRowsCall table' rows _) =>
           if decide (table' = table)
           then inr (number_of_Z (Z.of_nat (length rows)), rows)
           else inl "no such table"
       | _ => inl "nothing stored"
       end |}.

Lemma getManyRowsAndCount_lenient_witness :
  let w := {| heap := objects []; columnRepository := λ _, [];
              dataStoreRepository := [];
              rowsRepository :=
                [InsertRowsCall "data_store_user_gone"
                   [[("kept", Undefined); ("at", String_ "yesterday")]] visits] |} in
  @getManyRowsAndCount sample_implementation sample_collaborators sample_listing
    "gone" tt w
  = (Normal {| count := number_of_Z 1;
               data := [[("kept", Undefined); ("at", String_ "yesterday")]] |}, w).
Proof.
  intros w.
  destruct (proj2 (@getManyRowsAndCount_lenient sample_implementation
                     sample_collaborators sample_listing "gone" tt w)
              (number_of_Z 1)
              [[("kept", Undefined); ("at", String_ "yesterday")]]
              ltac:(vm_compute; reflexivity)) as (Hrun & _ & Hraw).
  rewrite Hrun. rewrite Hraw; [reflexivity|compute_done|reflexivity].
Defined.

Lemma normalized_stored_row `{Implementation} columns (r : Row) :
  entries_accepted columns r → Forall (λ kv, wf_value kv.2) r →
  normalized_row columns (stored_row columns r) = r.
Proof.
  intros Hacc Hvalues. unfold normalized_row, stored_row.
  rewrite <- list_fmap_compose. rewrite <- (list_fmap_id r) at 2.
  apply list_fmap_ext. intros i [k v] Hi. simpl. f_equal.
  apply list_elem_of_lookup_2 in Hi.
  rewrite entries_accepted_elem_of in Hacc. destruct (Hacc k v Hi) as [Hk Hv].
  rewrite Forall_forall in Hvalues. specialize (Hvalues _ Hi).
  apply column_type_is_Some in Hk as [ty Hty]. rewrite Hty in *.
  by apply normalizeCell_stored.
Qed.

(** X13.  Write, then read.  If [insertRows] succeeds on a batch of row
    objects, and the storage answers the next listing with the rows it has
    just been given, then [getManyRowsAndCount] returns the rows as they
    were before the write: every cell, the dates included, is the one the
    caller passed in, although the row objects themselves now hold ISO
    strings. *)
Theorem insertRows_then_list `{Implementation} `{Collaborators} `{RowsListing}
    dataStoreId batch options w inserted w1 n :
  let columns := columnRepository w dataStoreId in
  Forall (λ l, wf_row (heap w l) ∧ Forall (λ kv, wf_value kv.2) (heap w l)) batch →
  insertRows dataStoreId batch w = (Normal inserted, w1) →
  (∀ rows, last (rowsRepository w1)
           = Some (InsertRowsCall (toTableName dataStoreId) rows columns) →
           rowsRepository_getManyAndCount (rowsRepository w1)
             (toTableName dataStoreId) options = inr (n, rows)) →
  getManyRowsAndCount dataStoreId options w1
  = (Normal {| count := n; data := heap w <$> batch |}, w1).
Proof.
  intros columns Hrows Hinsert Hecho. rewrite Forall_forall in Hrows.
  unfold insertRows, mbind, M_bind in Hinsert.
  destruct (validateRows dataStoreId batch w) as [[[]|e] w0] eqn:Hrun; [|done].
  assert (columns ≠ []) as Hne.
  { intros Hnil.
    destruct (validateRows_spec dataStoreId batch w) as (w2 & Hrun2 & _).
    cbv zeta in Hrun2. fold columns in Hrun2. rewrite Hrun, Hnil in Hrun2. done. }
  destruct (validateRows_nonempty dataStoreId batch w Hne)
    as (w2 & Hrun2 & (Hcols & _ & Hlog) & Hh).
  rewrite Hrun in Hrun2. injection Hrun2 as Hok <-. fold columns in Hok, Hh.
  destruct (check_rows_Normal columns batch (heap w)) as [Hacc Hstored];
    [by intros l Hl; apply Hrows|done|].
  unfold getColumns, rowsRepository_call in Hinsert. simpl in Hinsert.
  injection Hinsert as _ <-.
  pose proof (Hecho (heap w0 <$> batch)) as Hpage. simpl in Hpage.
  rewrite last_snoc, Hcols in Hpage. specialize (Hpage eq_refl).
  unfold getManyRowsAndCount, mbind, M_bind, getColumns, getManyAndCount. simpl.
  rewrite !Hcols, Hpage. unfold mret, M_ret. simpl. do 3 f_equal. fold columns.
  rewrite normalizeRows_wf.
  - rewrite <- list_fmap_compose. apply list_fmap_ext. intros i l Hi.
    apply list_elem_of_lookup_2 in Hi. unfold compose.
    rewrite Hh, Hstored, bool_decide_eq_true_2 by done.
    apply normalized_stored_row; [apply Hacc, Hi|apply Hrows, Hi].
  - rewrite Forall_fmap. apply Forall_forall. intros l Hl. unfold compose.
    rewrite Hh, Hstored, bool_decide_eq_true_2 by done.
    apply stored_row_wf, Hrows, Hl.
Qed.

Lemma insertRows_then_list_witness :
  let w := world visits
             (objects [[("at", Date (Some 1000000000000)); ("note", Null)]]) in
  (@getManyRowsAndCount sample_implementation sample_collaborators sample_listing
     "visits" tt
     (@insertRows sample_implementation sample_collaborators "visits" [0%nat] w).2).1
  = Normal {| count := number_of_Z 1;
              data := [[("at", Date (Some 1000000000000)); ("note", Null)]] |}.
Proof.
  intros w.
  pose proof (run_eta (@insertRows sample_implementation sample_collaborators
                         "visits" [0%nat])
                w (Normal (Boolean true)) ltac:(vm_compute; reflexivity)) as Hrun.
  rewrite (@insertRows_then_list sample_implementation sample_collaborators
             sample_listing "visits" [0%nat] tt w _ _ (number_of_Z 1)
             ltac:(compute_done) Hrun).
  - reflexivity.
  - intros rows Hlast. vm_compute in Hlast. injection Hlast as <-.
    vm_compute. reflexivity.
Defined.

(* ===================================================================== *)
(** ** The service: data stores and columns *)
(* ===================================================================== *)

(** *** [String.prototype.trim]

    Strings are held in UTF-8.  [trim] removes, at both ends, the white
    space and the line terminators of ECMAScript: TAB, LF, VT, FF, CR, SP,
    U+00A0, U+1680, U+2000 to U+200A, U+2028, U+2029, U+202F, U+205F,
    U+3000 and U+FEFF. *)
Definition white1 (c : ascii) : bool :=
  let n := nat_of_ascii c in
  bool_decide (n = 9 ∨ n = 10 ∨ n = 11 ∨ n = 12 ∨ n = 13 ∨ n = 32)%nat.

Definition white2 (c1 c2 : ascii) : bool :=
  bool_decide (nat_of_ascii c1 = 194 ∧ nat_of_ascii c2 = 160)%nat.

Definition white3 (c1 c2 c3 : ascii) : bool :=
  let '(a, b, c) := (nat_of_ascii c1, nat_of_ascii c2, nat_of_ascii c3) in
  bool_decide
    ((a = 225 ∧ b = 154 ∧ c = 128)
     ∨ (a = 226 ∧ b = 128
        ∧ ((128 ≤ c ∧ c ≤ 138) ∨ c = 168 ∨ c = 169 ∨ c = 175))
     ∨ (a = 226 ∧ b = 129 ∧ c = 159)
     ∨ (a = 227 ∧ b = 128 ∧ c = 128)
     ∨ (a = 239 ∧ b = 187 ∧ c = 191))%nat.

(** Removes the white space at the head of a list of bytes, the three
    tests telling the white space of one, two and three bytes. *)
Fixpoint strip (w1 : ascii → bool) (w2 : ascii → ascii → bool)
    (w3 : ascii → ascii → ascii → bool) (s : list ascii) : list ascii :=
  match s with
  | [] => []
  | c1 :: s1 =>
      if w1 c1 then strip w1 w2 w3 s1
      else match s1 with
           | c2 :: s2 =>
               if w2 c1 c2 then strip w1 w2 w3 s2
               else match s2 with
                    | c3 :: s3 => if w3 c1 c2 c3 then strip w1 w2 w3 s3 else s
                    | [] => s
                    end
           | [] => s
           end
  end.

Definition trim (s : string) : string :=
  let head_stripped := strip white1 white2 white3 (list_ascii_of_string s) in
  string_of_list_ascii
    (rev (strip white1 (λ a b, white2 b a) (λ a b c, white3 c b a)
            (rev head_stripped))).

Example trim_name : trim "  orders	 " = "orders".
Proof. vm_compute. reflexivity. Qed.

Example trim_inner : trim "my orders" = "my orders".
Proof. vm_compute. reflexivity. Qed.

Example trim_blank : trim "  	" = "".
Proof. vm_compute. reflexivity. Qed.

(** *** Collaborators *)

Record UpdateDataStoreDto : Type := { update_name : string }.

Record MoveDataStoreColumnDto : Type := { targetIndex : Z }.

(** What the sources do not show of the metadata and column repositories.
    The identifiers of the entities are not among the fields modelled, so a
    look-up by identifier is a parameter; a method that changes the
    storage is given by its answer and the world it leaves. *)
Class Repositories : Type := {
  (** [dataStoreRepository.findOneBy({ id })]. *)
  dataStoreRepository_findOneById : string → list DataStore → option DataStore;
  (** [dataStoreRepository.update({ id }, { name })]. *)
  dataStoreRepository_update : string → string → World → (string + unit) * World;
  (** [dataStoreRepository.deleteDataStore(id)]. *)
  dataStoreRepository_deleteDataStore : string → World → (string + unit) * World;
  (** [dataStoreColumnRepository.findOneBy({ id, dataStoreId })]. *)
  dataStoreColumnRepository_findOneBy :
    string → string → World → option DataStoreColumn;
  AddDataStoreColumnDto : Type;
  (** [dataStoreColumnRepository.addColumn(dataStoreId, dto)]. *)
  dataStoreColumnRepository_addColumn :
    string → AddDataStoreColumnDto → World → (string + DataStoreColumn) * World;
  (** [dataStoreColumnRepository.moveColumn(dataStoreId, columnId, index)]. *)
  dataStoreColumnRepository_moveColumn :
    string → string → Z → World → (string + unit) * World;
  (** [dataStoreColumnRepository.deleteColumn(dataStoreId, column)]. *)
  dataStoreColumnRepository_deleteColumn :
    string → DataStoreColumn → World → (string + unit) * World;
}.

(** A call to a method of a repository. *)
Definition call {A} (method : World → (string + A) * World) : M A :=
  λ w, let '(a, w') := method w in (answer a, w').

Section metadata.
Context `{Repositories}.

Definition findOneById (id : string) : M (option DataStore) :=
  λ w, (Normal (dataStoreRepository_findOneById id (dataStoreRepository w)), w).

(** [dataStoreRepository.existsBy({ name, projectId })]. *)
Definition existsBy (name projectId : string) : M bool :=
  λ w, (Normal (existsb
                  (λ ds, bool_decide (ds_name ds = name)
                         && bool_decide (ds_projectId ds = projectId))
                  (dataStoreRepository w)), w).

Definition updateDataStore (dataStoreId : string) (dto : UpdateDataStoreDto)
  : M bool :=
  let name := trim (update_name dto) in
  if bool_decide (name = "") then
    throw (UserError "Data store name must not be empty")
  else
    existingTable ← findOneById dataStoreId;
    match existingTable with
    | None =>
        throw (UserError ("Tried to rename non-existent data store '"
                            +:+ dataStoreId +:+ "'"))
    | Some existingTable =>
        hasNameClash ← existsBy name (ds_projectId existingTable);
        if hasNameClash : bool then
          throw (UserError ("The name '" +:+ name
                              +:+ "' is already taken within this project"))
        else
          call (dataStoreRepository_update dataStoreId name);;
          mret true
    end.

Definition validateDataStoreExists (dataStoreId : string) (msg : option string)
  : M unit :=
  existingTable ← findOneById dataStoreId;
  match existingTable with
  | None =>
      throw (UserError (default ("Data Store '" +:+ dataStoreId
                                   +:+ "' does not exist.") msg))
  | Some _ => mret tt
  end.

Definition deleteDataStore (dataStoreId : string) : M bool :=
  validateDataStoreExists dataStoreId
    (Some ("Tried to delete non-existent data store '" +:+ dataStoreId +:+ "'"));;
  call (dataStoreRepository_deleteDataStore dataStoreId);;
  mret true.

Definition addColumn (dataStoreId : string) (dto : AddDataStoreColumnDto)
  : M DataStoreColumn :=
  validateDataStoreExists dataStoreId
    (Some ("Tried to add column to non-existent data store '"
             +:+ dataStoreId +:+ "'"));;
  call (dataStoreColumnRepository_addColumn dataStoreId dto).

Definition moveColumn (dataStoreId columnId : string)
    (dto : MoveDataStoreColumnDto) : M bool :=
  validateDataStoreExists dataStoreId
    (Some ("Tried to move column from non-existent data store '"
             +:+ dataStoreId +:+ "'"));;
  call (dataStoreColumnRepository_moveColumn dataStoreId columnId (targetIndex dto));;
  mret true.

Definition deleteColumn (dataStoreId columnId : string) : M bool :=
  validateDataStoreExists dataStoreId
    (Some ("Tried to delete column from non-existent data store '"
             +:+ dataStoreId +:+ "'"));;
  existingColumnMatch ←
    (λ w, (Normal (dataStoreColumnRepository_findOneBy columnId dataStoreId w), w));
  match existingColumnMatch with
  | None =>
      throw (UserError ("Tried to delete column with name not present in data store '"
                          +:+ dataStoreId +:+ "'"))
  | Some existingColumnMatch =>
      call (dataStoreColumnRepository_deleteColumn dataStoreId existingColumnMatch);;
      mret true
  end.

End metadata.

(* ===================================================================== *)
(** ** Further properties: data stores and columns *)
(* ===================================================================== *)

(** Repositories to run the metadata operations on concrete inputs: a data
    store is identified by its name, a column by its name, and every
    change succeeds without being recorded. *)
Definition sample_repositories : Repositories :=
  {| dataStoreRepository_findOneById := λ id stores,
       List.find (λ ds, bool_decide (ds_name ds = id)) stores;
     dataStoreRepository_update := λ _ _ w, (inr tt, w);
     dataStoreRepository_deleteDataStore := λ _ w, (inr tt, w);
     dataStoreColumnRepository_findOneBy := λ columnId dataStoreId w,
       List.find (λ c, bool_decide (name c = columnId))
         (columnRepository w dataStoreId);
     AddDataStoreColumnDto := DataStoreColumn;
     dataStoreColumnRepository_addColumn := λ _ dto w, (inr dto, w);
     dataStoreColumnRepository_moveColumn := λ _ _ _ w, (inr tt, w);
     dataStoreColumnRepository_deleteColumn := λ _ _ w, (inr tt, w) |}.

#[global] Instance DataStoreColumn_eq_dec : EqDecision DataStoreColumn.
Proof. solve_decision. Defined.

#[global] Instance DataStore_eq_dec : EqDecision DataStore.
Proof. solve_decision. Defined.

Definition two_projects : World :=
  {| heap := objects [];
     columnRepository := λ _, orders;
     dataStoreRepository :=
       [ {| ds_name := "orders"; ds_projectId := "P1"; ds_columns := orders |};
         {| ds_name := "visits"; ds_projectId := "P1"; ds_columns := visits |};
         {| ds_name := "notes"; ds_projectId := "P2"; ds_columns := notes |} ];
     rowsRepository := [] |}.

Lemma existsb_Exists_name (stores : list DataStore) name projectId :
  existsb (λ ds, bool_decide (ds_name ds = name)
                 && bool_decide (ds_projectId ds = projectId)) stores = true
  ↔ Exists (λ ds, ds_name ds = name ∧ ds_projectId ds = projectId) stores.
Proof.
  rewrite existsb_exists, Exists_exists. split.
  - intros (ds & Hin & [Hn Hp]%andb_prop).
    apply bool_decide_eq_true_1 in Hn, Hp. exists ds.
    split; [by apply list_elem_of_In|done].
  - intros (ds & Hin & Hn & Hp). exists ds. split; [by apply list_elem_of_In|].
    by rewrite !bool_decide_eq_true_2.
Qed.

(** X14.  The checks of [updateDataStore], in their order.  The name is
    trimmed first: a name that is empty or made of white space only is
    rejected before the data store is looked up.  Then an unknown
    identifier is rejected.  Then the trimmed name is compared with the
    names of the data stores of the same project, and a name in use is
    rejected.  In these three cases the world is left as it is and the
    repository is not asked to change anything; in every other case the
    repository is asked to store the trimmed name, and the result is true
    unless the repository fails. *)
Theorem updateDataStore_checks `{Repositories} dataStoreId dto w :
  let name := trim (update_name dto) in
  let found := dataStoreRepository_findOneById dataStoreId (dataStoreRepository w) in
  (name = "" →
   updateDataStore dataStoreId dto w
   = (Throw (UserError "Data store name must not be empty"), w))
  ∧ (name ≠ "" → found = None →
     updateDataStore dataStoreId dto w
     = (Throw (UserError ("Tried to rename non-existent data store '"
                            +:+ dataStoreId +:+ "'")), w))
  ∧ ∀ existing, name ≠ "" → found = Some existing →
      let clash :=
        Exists (λ ds, ds_name ds = name ∧ ds_projectId ds = ds_projectId existing)
               (dataStoreRepository w) in
      (clash →
       updateDataStore dataStoreId dto w
       = (Throw (UserError ("The name '" +:+ name
                              +:+ "' is already taken within this project")), w))
      ∧ (¬ clash →
         updateDataStore dataStoreId dto w
         = ((match (dataStoreRepository_update dataStoreId name w).1 with
             | inl reason => Throw (StorageFailure reason)
             | inr _ => Normal true
             end),
            (dataStoreRepository_update dataStoreId name w).2)).
Proof.
  intros name found. unfold updateDataStore. fold name.
  split; [by intros ->|].
  split.
  - intros Hname Hnone. rewrite bool_decide_eq_false_2 by done.
    unfold mbind, M_bind, findOneById. fold found. by rewrite Hnone.
  - intros existing Hname Hsome. cbv zeta. rewrite bool_decide_eq_false_2 by done.
    unfold mbind, M_bind, findOneById, existsBy. fold found. rewrite Hsome.
    destruct (existsb _ (dataStoreRepository w)) eqn:Hclash.
    + apply existsb_Exists_name in Hclash. split; [done|]. by intros [].
    + split.
      * intros Hyes%existsb_Exists_name. by rewrite Hyes in Hclash.
      * intros _. unfold call.
        by destruct (dataStoreRepository_update dataStoreId name w) as [[?|[]] ?].
Qed.

Lemma updateDataStore_checks_witness :
  @updateDataStore sample_repositories "no such store"
    {| update_name := "   " |} two_projects
  = (Throw (UserError "Data store name must not be empty"), two_projects)
  ∧ @updateDataStore sample_repositories "orders"
      {| update_name := " visits " |} two_projects
    = (Throw (UserError "The name 'visits' is already taken within this project"),
       two_projects)
  ∧ @updateDataStore sample_repositories "orders"
      {| update_name := "notes" |} two_projects
    = (Normal true, two_projects).
Proof.
  split; [|split].
  - apply (@updateDataStore_checks sample_repositories "no such store"
             {| update_name := "   " |} two_projects).
    vm_compute. reflexivity.
  - apply (proj2 (proj2 (@updateDataStore_checks sample_repositories "orders"
                           {| update_name := " visits " |} two_projects))
             {| ds_name := "orders"; ds_projectId := "P1"; ds_columns := orders |});
      [vm_compute; discriminate|vm_compute; reflexivity|].
    cbv zeta. vm_compute (trim _). compute_done.
  - rewrite (proj2 (proj2 (proj2 (@updateDataStore_checks sample_repositories
                                    "orders" {| update_name := "notes" |}
                                    two_projects))
                            {| ds_name := "orders"; ds_projectId := "P1";
                               ds_columns := orders |}
                            ltac:(vm_compute; discriminate)
                            ltac:(vm_compute; reflexivity))); [reflexivity|].
    cbv zeta. vm_compute (trim _). compute_done.
Defined.

(** X15.  A data store cannot be renamed to the name it has: the name
    clash is looked for among all the data stores of the project, the one
    being renamed included, so the current name, with or without white
    space around it, is "already taken". *)
Theorem updateDataStore_own_name `{Repositories} dataStoreId dto w existing :
  dataStoreRepository_findOneById dataStoreId (dataStoreRepository w)
  = Some existing →
  existing ∈ dataStoreRepository w →
  trim (update_name dto) = ds_name existing →
  ds_name existing ≠ "" →
  updateDataStore dataStoreId dto w
  = (Throw (UserError ("The name '" +:+ ds_name existing
                         +:+ "' is already taken within this project")), w).
Proof.
  intros Hfound Hin Htrim Hname. unfold updateDataStore. rewrite Htrim.
  rewrite bool_decide_eq_false_2 by done.
  unfold mbind, M_bind, findOneById, existsBy. rewrite Hfound.
  rewrite (proj2 (existsb_Exists_name _ _ _)); [done|].
  apply Exists_exists. by exists existing.
Qed.

Lemma updateDataStore_own_name_witness :
  @updateDataStore sample_repositories "orders"
    {| update_name := "orders " |} two_projects
  = (Throw (UserError "The name 'orders' is already taken within this project"),
     two_projects).
Proof.
  apply (@updateDataStore_own_name sample_repositories "orders"
           {| update_name := "orders " |} two_projects
           {| ds_name := "orders"; ds_projectId := "P1"; ds_columns := orders |});
    [vm_compute; reflexivity|compute_done|vm_compute; reflexivity|discriminate].
Defined.

(** X16.  [deleteDataStore], [addColumn], [moveColumn] and [deleteColumn]
    look the data store up first: on an identifier that no data store has,
    each fails with its own message, which names the identifier, and the
    world is left as it is, no repository being asked to change anything. *)
Theorem unknown_data_store `{Repositories} dataStoreId columnId column move w :
  dataStoreRepository_findOneById dataStoreId (dataStoreRepository w) = None →
  deleteDataStore dataStoreId w
  = (Throw (UserError ("Tried to delete non-existent data store '"
                         +:+ dataStoreId +:+ "'")), w)
  ∧ addColumn dataStoreId column w
    = (Throw (UserError ("Tried to add column to non-existent data store '"
                           +:+ dataStoreId +:+ "'")), w)
  ∧ moveColumn dataStoreId columnId move w
    = (Throw (UserError ("Tried to move column from non-existent data store '"
                           +:+ dataStoreId +:+ "'")), w)
  ∧ deleteColumn dataStoreId columnId w
    = (Throw (UserError ("Tried to delete column from non-existent data store '"
                           +:+ dataStoreId +:+ "'")), w).
Proof.
  intros Hnone.
  unfold deleteDataStore, addColumn, moveColumn, deleteColumn,
    validateDataStoreExists, mbind, M_bind, findOneById.
  rewrite Hnone. done.
Qed.

Lemma unknown_data_store_witness :
  @deleteColumn sample_repositories "archive" "paid" two_projects
  = (Throw (UserError
              "Tried to delete column from non-existent data store 'archive'"),
     two_projects).
Proof.
  apply (@unknown_data_store sample_repositories "archive" "paid"
           {| name := "paid"; type := boolean |} {| targetIndex := 0 |}
           two_projects).
  vm_compute. reflexivity.
Defined.

(** X17.  [deleteColumn] on a data store that exists: a column identifier
    that the column repository does not find on that data store is
    rejected, and nothing is deleted; otherwise the repository is asked to
    delete the very column that was found, and the result is true unless
    the repository fails. *)
Theorem deleteColumn_checks `{Repositories} dataStoreId columnId w existing :
  dataStoreRepository_findOneById dataStoreId (dataStoreRepository w)
  = Some existing →
  match dataStoreColumnRepository_findOneBy columnId dataStoreId w with
  | None =>
      deleteColumn dataStoreId columnId w
      = (Throw (UserError
                  ("Tried to delete column with name not present in data store '"
                     +:+ dataStoreId +:+ "'")), w)
  | Some column =>
      deleteColumn dataStoreId columnId w
      = ((match (dataStoreColumnRepository_deleteColumn dataStoreId column w).1 with
          | inl reason => Throw (StorageFailure reason)
          | inr _ => Normal true
          end),
         (dataStoreColumnRepository_deleteColumn dataStoreId column w).2)
  end.
Proof.
  intros Hfound.
  unfold deleteColumn, validateDataStoreExists, mbind, M_bind, findOneById.
  rewrite Hfound. simpl.
  destruct (dataStoreColumnRepository_findOneBy columnId dataStoreId w)
    as [column|]; [|done].
  unfold call.
  by destruct (dataStoreColumnRepository_deleteColumn dataStoreId column w)
    as [[?|[]] ?].
Qed.

Lemma deleteColumn_checks_witness :
  @deleteColumn sample_repositories "orders" "price" two_projects
  = (Throw (UserError
              "Tried to delete column with name not present in data store 'orders'"),
     two_projects).
Proof.
  apply (@deleteColumn_checks sample_repositories "orders" "price" two_projects
           {| ds_name := "orders"; ds_projectId := "P1"; ds_columns := orders |}).
  vm_compute. reflexivity.
Defined.

(** X18.  The existence of the data store is the only check that
    [deleteDataStore], [addColumn] and [moveColumn] make.  On a data store
    that exists each asks its repository once, with the arguments as they
    were given: [addColumn] does not look at the columns the data store
    has, and [moveColumn] neither looks for the column nor bounds the
    target index.  [addColumn] returns what the repository answers;
    the other two return true unless the repository fails. *)
Theorem existing_data_store `{Repositories} dataStoreId columnId column move w
    existing :
  dataStoreRepository_findOneById dataStoreId (dataStoreRepository w)
  = Some existing →
  deleteDataStore dataStoreId w
  = ((match (dataStoreRepository_deleteDataStore dataStoreId w).1 with
      | inl reason => Throw (StorageFailure reason)
      | inr _ => Normal true
      end),
     (dataStoreRepository_deleteDataStore dataStoreId w).2)
  ∧ addColumn dataStoreId column w
    = (answer (dataStoreColumnRepository_addColumn dataStoreId column w).1,
       (dataStoreColumnRepository_addColumn dataStoreId column w).2)
  ∧ moveColumn dataStoreId columnId move w
    = ((match (dataStoreColumnRepository_moveColumn dataStoreId columnId
                 (targetIndex move) w).1 with
        | inl reason => Throw (StorageFailure reason)
        | inr _ => Normal true
        end),
       (dataStoreColumnRepository_moveColumn dataStoreId columnId
          (targetIndex move) w).2).
Proof.
  intros Hfound.
  unfold deleteDataStore, addColumn, moveColumn, validateDataStoreExists,
    mbind, M_bind, findOneById, call.
  rewrite Hfound. simpl. split; [|split].
  - by destruct (dataStoreRepository_deleteDataStore dataStoreId w) as [[?|[]] ?].
  - by destruct (dataStoreColumnRepository_addColumn dataStoreId column w)
      as [[?|?] ?].
  - by destruct (dataStoreColumnRepository_moveColumn dataStoreId columnId
                   (targetIndex move) w) as [[?|[]] ?].
Qed.

Lemma existing_data_store_witness :
  @moveColumn sample_repositories "orders" "price" {| targetIndex := -5 |}
    two_projects
  = (Normal true, two_projects).
Proof.
  apply (@existing_data_store sample_repositories "orders" "price"
           {| name := "paid"; type := boolean |} {| targetIndex := -5 |}
           two_projects
           {| ds_name := "orders"; ds_projectId := "P1"; ds_columns := orders |}).
  vm_compute. reflexivity.
Defined.
